(** * fastmat: Product and DiagBlocks

  A shallow embedding of [fastmat/Product.pyx] and [fastmat/DiagBlocks.pyx].

  Values are Gaussian integers, and the element type of an array (its numpy
  dtype) is carried next to them.  The casts and the products with a scalar
  that [Product] computes ([astype], [np.inner]) follow the machine types:
  the integer types wrap around, the floating types round to their
  significand (to nearest, ties to even; the overflow to infinity is left
  out).  The matrix product [dot] and the contractions [einsum] give the
  exact sums.  Arrays are a shape together with nested lists of values;
  the numpy routines the two classes call are modelled next to them, with
  the errors they raise. *)

From Stdlib Require Import ZArith List Bool Arith Lia.
From stdpp Require Import base list.
From Equations Require Import Equations.
Import ListNotations.

(** * The model *)

(** ** Numbers *)

Module Num.

(** A complex number with integer real and imaginary part. *)
Record cplx : Type := Cx { re : Z; im : Z }.

Definition zero : cplx := Cx 0 0.
Definition one : cplx := Cx 1 0.
Definition of_Z (z : Z) : cplx := Cx z 0.

Definition add (a b : cplx) : cplx := Cx (re a + re b) (im a + im b).
Definition mul (a b : cplx) : cplx :=
  Cx (re a * re b - im a * im b) (re a * im b + im a * re b).

(** [x.conjugate()] *)
Definition conj (a : cplx) : cplx := Cx (re a) (- im a).

(** [np.iscomplex(x)]: the imaginary part is not zero. *)
Definition iscomplex (a : cplx) : bool := negb (im a =? 0)%Z.

Definition eqb (a b : cplx) : bool := ((re a =? re b) && (im a =? im b))%Z.

(** The sum of [f 0 .. f (n-1)], as a loop adding to an accumulator. *)
Definition sum (n : nat) (f : nat -> cplx) : cplx :=
  fold_left (fun acc i => add acc (f i)) (seq 0 n) zero.

End Num.

Abbreviation cplx := Num.cplx.

(** ** Element types *)

Module Dtype.

(** The element types of fastmat ([typesAll]). *)
Inductive dtype : Type :=
| int8 | int16 | int32 | int64
| float32 | float64
| complex64 | complex128.

Definition dtype_eqb (a b : dtype) : bool :=
  match a, b with
  | int8, int8 | int16, int16 | int32, int32 | int64, int64
  | float32, float32 | float64, float64
  | complex64, complex64 | complex128, complex128 => true
  | _, _ => false
  end.

(** [np.promote_types]: the smallest type both arguments cast to safely. *)
Definition promote_types (a b : dtype) : dtype :=
  match a, b with
  | int8, t | t, int8 => t
  | int16, int16 => int16
  | int16, t | t, int16 => t
  | int32, int32 => int32
  | int32, int64 | int64, int32 | int64, int64 => int64
  | int32, float32 | float32, int32 | int64, float32 | float32, int64 => float64
  | int32, float64 | float64, int32 | int64, float64 | float64, int64 => float64
  | int32, _ | _, int32 | int64, _ | _, int64 => complex128
  | float32, float32 => float32
  | float32, t | t, float32 => t
  | float64, float64 => float64
  | float64, _ | _, float64 => complex128
  | complex64, complex64 => complex64
  | _, _ => complex128
  end.

(** [a] casts safely to [b]: [b] is at least as wide as [a]. *)
Definition le (a b : dtype) : Prop := promote_types a b = b.

End Dtype.

Abbreviation dtype := Dtype.dtype.
Abbreviation promote_types := Dtype.promote_types.

(** ** Machine arithmetic *)

(** A signed integer of [w] bits wraps around. *)
Definition wrap (w : Z) (z : Z) : Z :=
  ((z + 2 ^ (w - 1)) mod 2 ^ w - 2 ^ (w - 1))%Z.

(** A floating number with a significand of [p] bits holds the integers
    below [2 ^ p] exactly; a larger one is rounded to [p] leading bits, to
    the nearest, ties to the even one. *)
Definition round_bits (p : Z) (z : Z) : Z :=
  let a := Z.abs z in
  if (a <? 2 ^ p)%Z then z
  else
    let q := (2 ^ (Z.log2 a + 1 - p))%Z in
    let d := (a / q)%Z in
    let r := (a mod q)%Z in
    let half := (q / 2)%Z in
    let d' := if (half <? r)%Z || ((r =? half)%Z && Z.odd d)
              then (d + 1)%Z else d in
    (Z.sgn z * (d' * q))%Z.

(** What a real number becomes when it is stored in an element type. *)
Definition fit_real (dt : dtype) (z : Z) : Z :=
  match dt with
  | Dtype.int8 => wrap 8 z
  | Dtype.int16 => wrap 16 z
  | Dtype.int32 => wrap 32 z
  | Dtype.int64 => wrap 64 z
  | Dtype.float32 | Dtype.complex64 => round_bits 24 z
  | Dtype.float64 | Dtype.complex128 => round_bits 53 z
  end.

Definition is_complex_dtype (dt : dtype) : bool :=
  match dt with
  | Dtype.complex64 | Dtype.complex128 => true
  | _ => false
  end.

(** [x.astype(dt)] for one number: a real type drops the imaginary part. *)
Definition fit (dt : dtype) (c : cplx) : cplx :=
  Num.Cx (fit_real dt (Num.re c))
         (if is_complex_dtype dt then fit_real dt (Num.im c) else 0%Z).

(** The product of two numbers computed in the element type [dt]: both are
    cast to it, and every operation stores its result in it. *)
Definition mul_in (dt : dtype) (a b : cplx) : cplx :=
  let a := fit dt a in
  let b := fit dt b in
  let f := fit_real dt in
  Num.Cx (f (f (Num.re a * Num.re b) - f (Num.im a * Num.im b))%Z)
         (if is_complex_dtype dt
          then f (f (Num.re a * Num.im b) + f (Num.im a * Num.re b))%Z
          else 0%Z).

(** ** Exceptions *)

(** The exceptions the two classes raise, with the values their messages
    are formatted from, and the shape errors raised inside numpy. *)
Inductive error : Type :=
| TypeError_NonMatrixTerm            (* "Product has non-fastmat-matrix terms." *)
| ValueError_NoTerms                 (* "Product has no terms." *)
| ValueError_Dimensions (ii numN numM : nat)
    (* "Dimensions of product factor %d [%dx%d] do not match." *)
| ValueError_Shape                   (* numpy: reshape, einsum, broadcast, dot *)
| IndexError.

Inductive result (A : Type) : Type :=
| Ok (a : A)
| Raise (e : error).
Arguments Ok {A} a.
Arguments Raise {A} e.

Definition rbind {A B : Type} (r : result A) (k : A -> result B) : result B :=
  match r with
  | Ok a => k a
  | Raise e => Raise e
  end.

Notation "'let!' x ':=' r 'in' k" := (rbind r (fun x => k))
  (at level 10, x name, r at level 100, k at level 200).

(** A [for] loop whose body may raise: the state is threaded through the
    items in order and the first exception ends the loop. *)
Fixpoint for_each {S I : Type} (body : S -> I -> result S) (items : list I) (s : S)
  : result S :=
  match items with
  | [] => Ok s
  | i :: rest => let! s' := body s i in for_each body rest s'
  end.

(** ** Arrays *)

(** A numpy scalar: element type and value. *)
Record npscalar : Type := NpScalar { sc_dtype : dtype; sc_val : cplx }.

(** A two-dimensional [ndarray]: element type, shape, and the rows. *)
Record ndarray : Type := NdArray {
  arr_dtype : dtype;
  arr_rows : nat;
  arr_cols : nat;
  arr_data : list (list cplx)
}.

(** A three-dimensional [ndarray]. *)
Record tensor3 : Type := Tensor3 {
  ten_dtype : dtype;
  ten_d0 : nat;
  ten_d1 : nat;
  ten_d2 : nat;
  ten_data : list (list (list cplx))
}.

Definition get (X : ndarray) (i j : nat) : cplx :=
  nth j (nth i (arr_data X) []) Num.zero.

Definition get3 (T : tensor3) (a b c : nat) : cplx :=
  nth c (nth b (nth a (ten_data T) []) []) Num.zero.

Definition tabulate {A : Type} (n : nat) (f : nat -> A) : list A :=
  map f (seq 0 n).

(** The array of the given type and shape whose entry [(i, j)] is [f i j]. *)
Definition mk2 (dt : dtype) (r c : nat) (f : nat -> nat -> cplx) : ndarray :=
  NdArray dt r c (tabulate r (fun i => tabulate c (f i))).

Definition mk3 (dt : dtype) (d0 d1 d2 : nat) (f : nat -> nat -> nat -> cplx)
  : tensor3 :=
  Tensor3 dt d0 d1 d2
    (tabulate d0 (fun a => tabulate d1 (fun b => tabulate d2 (f a b)))).

(** [X.astype(dt)]: every element is cast to [dt]. *)
Definition astype (X : ndarray) (dt : dtype) : ndarray :=
  mk2 dt (arr_rows X) (arr_cols X) (fun i j => fit dt (get X i j)).

Definition sc_astype (s : npscalar) (dt : dtype) : npscalar :=
  NpScalar dt (fit dt (sc_val s)).

(** [np.inner(X, s)] for a scalar [s]: the element-wise product, computed in
    the promotion of the two element types. *)
Definition np_inner (X : ndarray) (s : npscalar) : ndarray :=
  let dt := promote_types (arr_dtype X) (sc_dtype s) in
  mk2 dt (arr_rows X) (arr_cols X)
      (fun i j => mul_in dt (get X i j) (sc_val s)).

(** [np.inner(s, t)] for two scalars. *)
Definition sc_inner (s t : npscalar) : npscalar :=
  let dt := promote_types (sc_dtype s) (sc_dtype t) in
  NpScalar dt (mul_in dt (sc_val s) (sc_val t)).

Definition sc_conjugate (s : npscalar) : npscalar :=
  NpScalar (sc_dtype s) (Num.conj (sc_val s)).

(** [s != 1] *)
Definition sc_ne_1 (s : npscalar) : bool := negb (Num.eqb (sc_val s) Num.one).

(** [A.dot(B)]: the matrix product; the inner sizes have to agree.  The
    entries are the exact sums of products. *)
Definition dot (A B : ndarray) : result ndarray :=
  if arr_cols A =? arr_rows B then
    Ok (mk2 (promote_types (arr_dtype A) (arr_dtype B)) (arr_rows A) (arr_cols B)
            (fun i k => Num.sum (arr_cols A)
                          (fun j => Num.mul (get A i j) (get B j k))))
  else Raise ValueError_Shape.

(** [T.conj()] *)
Definition ten_conj (T : tensor3) : tensor3 :=
  mk3 (ten_dtype T) (ten_d0 T) (ten_d1 T) (ten_d2 T)
      (fun a b c => Num.conj (get3 T a b c)).

(** The entry of [X] at position [f] of its column-major (Fortran)
    enumeration. *)
Definition flatF2 (X : ndarray) (f : nat) : cplx :=
  get X (f mod arr_rows X) (f / arr_rows X).

Definition flatF3 (T : tensor3) (f : nat) : cplx :=
  get3 T (f mod ten_d0 T) ((f / ten_d0 T) mod ten_d1 T)
         (f / (ten_d0 T * ten_d1 T)).

(** [X.reshape((-1, d1, d2), order='F')]: the first size is inferred, which
    fails when the number of entries is not a multiple of [d1 * d2]. *)
Definition reshapeF_3 (X : ndarray) (d1 d2 : nat) : result tensor3 :=
  let total := arr_rows X * arr_cols X in
  if (d1 * d2 =? 0) || negb (total mod (d1 * d2) =? 0) then Raise ValueError_Shape
  else
    let d0 := total / (d1 * d2) in
    Ok (mk3 (arr_dtype X) d0 d1 d2
            (fun a b c => flatF2 X (a + d0 * (b + d1 * c)))).

(** [T.reshape((-1, d1), order='F')] *)
Definition reshapeF_2 (T : tensor3) (d1 : nat) : result ndarray :=
  let total := ten_d0 T * ten_d1 T * ten_d2 T in
  if (d1 =? 0) || negb (total mod d1 =? 0) then Raise ValueError_Shape
  else
    let d0 := total / d1 in
    Ok (mk2 (ten_dtype T) d0 d1 (fun r k => flatF3 T (r + d0 * k))).

(** The common size of an [einsum] label carried by two axes: the sizes
    agree, or one of them is 1 and is broadcast. *)
Definition label_size (a b : nat) : result nat :=
  if a =? b then Ok a
  else if a =? 1 then Ok b
  else if b =? 1 then Ok a
  else Raise ValueError_Shape.

(** The index into an axis of size [d] under broadcasting. *)
Definition bidx (d i : nat) : nat := if d =? 1 then 0 else i.

(** [np.einsum('nmz,zmk -> znk', A, B)]; the entries are the exact sums of
    products. *)
Definition einsum_nmz_zmk (A B : tensor3) : result tensor3 :=
  let! m := label_size (ten_d1 A) (ten_d1 B) in
  let! z := label_size (ten_d2 A) (ten_d0 B) in
  Ok (mk3 (promote_types (ten_dtype A) (ten_dtype B)) z (ten_d0 A) (ten_d2 B)
          (fun iz n k =>
             Num.sum m (fun im =>
               Num.mul (get3 A n (bidx (ten_d1 A) im) (bidx (ten_d2 A) iz))
                       (get3 B (bidx (ten_d0 B) iz) (bidx (ten_d1 B) im) k)))).

(** [np.einsum('mnz,zmk -> znk', A, B)] *)
Definition einsum_mnz_zmk (A B : tensor3) : result tensor3 :=
  let! m := label_size (ten_d0 A) (ten_d1 B) in
  let! z := label_size (ten_d2 A) (ten_d0 B) in
  Ok (mk3 (promote_types (ten_dtype A) (ten_dtype B)) z (ten_d1 A) (ten_d2 B)
          (fun iz n k =>
             Num.sum m (fun im =>
               Num.mul (get3 A (bidx (ten_d0 A) im) n (bidx (ten_d2 A) iz))
                       (get3 B (bidx (ten_d0 B) iz) (bidx (ten_d1 B) im) k)))).

(** [R[:] = V]: [V] is broadcast to the shape of [R], which keeps its
    element type. *)
Definition assign_all (R V : ndarray) : result ndarray :=
  if ((arr_rows V =? arr_rows R) || (arr_rows V =? 1))
     && ((arr_cols V =? arr_cols R) || (arr_cols V =? 1))
  then Ok (mk2 (arr_dtype R) (arr_rows R) (arr_cols R)
               (fun i j => get V (bidx (arr_rows V) i) (bidx (arr_cols V) j)))
  else Raise ValueError_Shape.

(** [np.zeros((r, c), dtype=dt)] *)
Definition np_zeros (r c : nat) (dt : dtype) : ndarray :=
  mk2 dt r c (fun _ _ => Num.zero).

(** [T[a, b, :]] *)
Definition ten_row (T : tensor3) (a b : nat) : list cplx :=
  tabulate (ten_d2 T) (get3 T a b).

(** [np.diag(v)] for a vector [v] *)
Definition np_diag (dt : dtype) (v : list cplx) : ndarray :=
  mk2 dt (length v) (length v)
      (fun i j => if i =? j then nth i v Num.zero else Num.zero).

(** [R[r0:r1, c0:c1] = V]: the slice is clipped to the array, and [V] has to
    have the shape of the clipped slice (the broadcasting of a smaller [V] is
    left out: [_reference] assigns a value of the shape of the slice). *)
Definition assign_block (R : ndarray) (r0 r1 c0 c1 : nat) (V : ndarray)
  : result ndarray :=
  let r1' := Nat.min r1 (arr_rows R) in
  let c1' := Nat.min c1 (arr_cols R) in
  if (arr_rows V =? r1' - r0) && (arr_cols V =? c1' - c0) then
    Ok (mk2 (arr_dtype R) (arr_rows R) (arr_cols R)
            (fun i j =>
               if (r0 <=? i) && (i <? r1') && (c0 <=? j) && (j <? c1')
               then get V (i - r0) (j - c0) else get R i j))
  else Raise ValueError_Shape.

(** ** The operator contract *)

(** What [Product] uses of a fastmat [Matrix] that is not itself a
    [Product]: its shape, its element type, the two transforms (which may
    raise) and its dense reference. *)
Record Matrix : Type := MkMatrix {
  numN : nat;
  numM : nat;
  mat_dtype : dtype;
  forward : ndarray -> result ndarray;
  backward : ndarray -> result ndarray;
  reference : ndarray
}.

(** ** Product *)

(** The attributes of a [Product]: [_forwardReferenceMatrix] is [None]
    until [_forwardReferenceInit] has stored the list of references. *)
Record Product : Type := MkProduct {
  _scalar : npscalar;
  _content : list Matrix;
  prod_numN : nat;
  prod_numM : nat;
  prod_dtype : dtype;
  _forwardReferenceMatrix : option (list ndarray)
}.

(** A term handed to [Product(...)] or found in a [content]: a number of
    one of the eight element types (a scalar for [np.isscalar]), a matrix,
    a [Product], or an object that is neither a scalar for [np.isscalar]
    nor a [Matrix].  Scalars that are not such numbers (a [str], say, which
    [np.inner] refuses) are not among the terms. *)
Inductive factor : Type :=
| FScalar (s : npscalar)
| FMatrix (A : Matrix)
| FProduct (P : Product)
| FOther.

(** The property [content]:
    [lst = [self._scalar] if self._scalar != 1 else []]
    [return lst + list(self._content)] *)
Definition content (P : Product) : list factor :=
  (if sc_ne_1 (_scalar P) then [FScalar (_scalar P)] else [])
  ++ map FMatrix (_content P).

(** The variables [__init__] shares with its two closures. *)
Record build : Type := MkBuild {
  b_scalar : npscalar;              (* self._scalar *)
  b_datatype : dtype;               (* datatype[0] *)
  b_factors : list Matrix           (* lstFactors *)
}.

Definition factor_weight (f : factor) : nat :=
  match f with
  | FProduct P => S (S (length (_content P)))
  | _ => 1
  end.

Definition factors_weight (l : list factor) : nat :=
  list_sum (map factor_weight l).

Lemma factors_weight_content P : factors_weight (content P) <= S (length (_content P)).
Proof.
  unfold content, factors_weight. rewrite map_app, list_sum_app.
  assert (H : forall l : list Matrix,
             list_sum (map factor_weight (map FMatrix l)) = length l).
  { induction l; simpl; congruence. }
  rewrite H. destruct (sc_ne_1 (_scalar P)); simpl; lia.
Qed.

(** The closure [__addFactors]: scalars are multiplied into the running
    scalar, the content of a nested [Product] is visited in its place, and
    every other matrix is appended to [lstFactors]. *)
Equations? addFactors (factors : list factor) (st : build) : result build
  by wf (factors_weight factors) lt :=
addFactors [] st := Ok st;
addFactors (FScalar s :: rest) st :=
  addFactors rest
    (MkBuild (sc_inner (b_scalar st) s)
             (promote_types (b_datatype st) (sc_dtype s))
             (b_factors st));
addFactors (FOther :: rest) st := Raise TypeError_NonMatrixTerm;
addFactors (FProduct P :: rest) st with addFactors (content P) st := {
  | Ok st' := addFactors rest st';
  | Raise e := Raise e };
addFactors (FMatrix A :: rest) st :=
  addFactors rest
    (MkBuild (b_scalar st)
             (promote_types (b_datatype st) (mat_dtype A))
             (b_factors st ++ [A])).
Proof.
  all: unfold factors_weight; simpl; fold (factors_weight rest);
    try pose proof (factors_weight_content P);
    try fold (factors_weight (content P)); lia.
Qed.

(** Keyword arguments of [Product(...)]: [typeExpansion] is [None] when
    the key is absent, [Some None] for [typeExpansion=None]. *)
Record options : Type := MkOptions {
  debug : bool;
  typeExpansion : option (option dtype)
}.

Definition no_options : options := MkOptions false None.

(** The loop of [__init__] over [range(1, len(lstFactors))]: [numM] is the
    state, [numN] stays that of the first factor. *)
Definition check_dims (lstFactors : list Matrix) (numN0 : nat) (numM0 : nat)
  : result nat :=
  for_each
    (fun numM' ii =>
       match lstFactors !! ii with
       | None => Raise IndexError
       | Some fac =>
           if negb (numN fac =? numM') then
             Raise (ValueError_Dimensions ii numN0 numM')
           else Ok (numM fac)
       end)
    (seq 1 (length lstFactors - 1)) numM0.

Section ProductClass.

(** [helpers.types.safeTypeExpansion], which is not part of the sources at
    hand: the default of [typeExpansion]. *)
Variable safeTypeExpansion : dtype -> dtype.

(** [Product.__init__]; the printing under [debug] has no effect on the
    object and is left out. *)
Definition Product_init (matrices : list factor) (opts : options)
  : result Product :=
  let! st := addFactors matrices
               (MkBuild (NpScalar Dtype.int8 Num.one) Dtype.int8 []) in
  let dt := b_datatype st in
  let expansion :=
    match typeExpansion opts with
    | None => Some (safeTypeExpansion dt)
    | Some v => v
    end in
  let dt := match expansion with
            | None => dt
            | Some t => promote_types dt t
            end in
  match b_factors st with
  | [] => Raise ValueError_NoTerms
  | first :: _ =>
      let! numM' := check_dims (b_factors st) (numN first) (numM first) in
      Ok (MkProduct (sc_astype (b_scalar st) dt) (b_factors st)
                    (numN first) numM' dt None)
  end.

End ProductClass.

(** The scalar step of [_forward]: [np.inner] when the scalar is not 1, a
    cast to the promoted type otherwise. *)
Definition forward_scale (P : Product) (arrX : ndarray) : ndarray :=
  if sc_ne_1 (_scalar P) then np_inner arrX (_scalar P)
  else astype arrX (promote_types (arr_dtype arrX) (prod_dtype P)).

(** The scalar step of [_backward]. *)
Definition backward_scale (P : Product) (arrX : ndarray) : ndarray :=
  if sc_ne_1 (_scalar P) then
    if Num.iscomplex (sc_val (_scalar P))
    then np_inner arrX (sc_conjugate (_scalar P))
    else np_inner arrX (_scalar P)
  else astype arrX (promote_types (arr_dtype arrX) (prod_dtype P)).

(** [self._content[i]] *)
Definition content_at (P : Product) (i : nat) : result Matrix :=
  match _content P !! i with
  | Some A => Ok A
  | None => Raise IndexError
  end.

(** [Product._forward] *)
Definition Product_forward (P : Product) (arrX : ndarray) : result ndarray :=
  let cnt := length (_content P) in
  for_each
    (fun arrRes ii =>
       let iii := cnt - 1 - ii in
       let! A := content_at P iii in forward A arrRes)
    (seq 0 cnt) (forward_scale P arrX).

(** [Product._backward] *)
Definition Product_backward (P : Product) (arrX : ndarray) : result ndarray :=
  let cnt := length (_content P) in
  for_each
    (fun arrRes ii => let! A := content_at P ii in backward A arrRes)
    (seq 0 cnt) (backward_scale P arrX).

(** [Product._reference] *)
Definition Product_reference (P : Product) : result ndarray :=
  let cnt := length (_content P) in
  let dt := promote_types Dtype.float64 (prod_dtype P) in
  let! last := content_at P (cnt - 1) in
  for_each
    (fun arrRes ii =>
       let! term := content_at P (cnt - ii - 1) in
       dot (reference term) arrRes)
    (seq 1 (cnt - 1))
    (np_inner (reference last) (sc_astype (_scalar P) dt)).

(** [Product._forwardReferenceInit] *)
Definition Product_forwardReferenceInit (P : Product) : Product :=
  MkProduct (_scalar P) (_content P) (prod_numN P) (prod_numM P) (prod_dtype P)
            (Some (map reference (_content P))).

(** [Product._forwardReference]: the result, and the object with its
    cache. *)
Definition Product_forwardReference (P : Product) (arrX : ndarray)
  : result ndarray * Product :=
  let P' := match _forwardReferenceMatrix P with
            | Some _ => P
            | None => Product_forwardReferenceInit P
            end in
  let cache := default [] (_forwardReferenceMatrix P') in
  (for_each
     (fun arrRes ii =>
        match cache !! (ii - 1) with
        | Some R => dot R arrRes
        | None => Raise IndexError
        end)
     (rev (seq 1 (length (_content P')))) arrX,
   P').

(** ** DiagBlocks *)

Record DiagBlocks : Type := MkDiagBlocks {
  _numDiagsN : nat;
  _numDiagsM : nat;
  _numDiagsSize : nat;
  _tenDiags : tensor3;
  db_numN : nat;
  db_numM : nat;
  db_dtype : dtype
}.

(** [DiagBlocks.__init__]; [np.copy] gives the object its own tensor, which
    is the same value here. *)
Definition DiagBlocks_init (tenDiags : tensor3) : DiagBlocks :=
  let n := ten_d0 tenDiags in
  let m := ten_d1 tenDiags in
  let size := ten_d2 tenDiags in
  MkDiagBlocks n m size tenDiags (n * size) (m * size) (ten_dtype tenDiags).

(** [DiagBlocks._forwardC] *)
Definition DiagBlocks_forwardC (D : DiagBlocks) (arrX arrRes : ndarray)
  : result ndarray :=
  let! X3 := reshapeF_3 arrX (_numDiagsM D) (arr_cols arrX) in
  let! E := einsum_nmz_zmk (_tenDiags D) X3 in
  let! V := reshapeF_2 E (arr_cols arrX) in
  assign_all arrRes V.

(** [DiagBlocks._backwardC] *)
Definition DiagBlocks_backwardC (D : DiagBlocks) (arrX arrRes : ndarray)
  : result ndarray :=
  let! X3 := reshapeF_3 arrX (_numDiagsM D) (arr_cols arrX) in
  let! E := einsum_mnz_zmk (ten_conj (_tenDiags D)) X3 in
  let! V := reshapeF_2 E (arr_cols arrX) in
  assign_all arrRes V.

(** Modelled from the spec: the [forward] and [backward] of the base class
    [Matrix], which are not part of the sources at hand.  An input whose
    row count is not [numM] ([numN] for [backward]) is refused; otherwise
    the result array of [numN] ([numM]) rows and as many columns as the
    input is allocated in the promoted element type and handed to
    [_forwardC] ([_backwardC]). *)
Definition DiagBlocks_forward (D : DiagBlocks) (arrX : ndarray) : result ndarray :=
  if negb (arr_rows arrX =? db_numM D) then Raise ValueError_Shape
  else
    DiagBlocks_forwardC D arrX
      (np_zeros (db_numN D) (arr_cols arrX)
                (promote_types (db_dtype D) (arr_dtype arrX))).

Definition DiagBlocks_backward (D : DiagBlocks) (arrX : ndarray) : result ndarray :=
  if negb (arr_rows arrX =? db_numN D) then Raise ValueError_Shape
  else
    DiagBlocks_backwardC D arrX
      (np_zeros (db_numM D) (arr_cols arrX)
                (promote_types (db_dtype D) (arr_dtype arrX))).

(** [DiagBlocks._reference] *)
Definition DiagBlocks_reference (D : DiagBlocks) : result ndarray :=
  let size := _numDiagsSize D in
  for_each
    (fun arrRes nn =>
       for_each
         (fun arrRes mm =>
            assign_block arrRes
              (nn * size) ((nn + 1) * size) (mm * size) ((mm + 1) * size)
              (np_diag (ten_dtype (_tenDiags D)) (ten_row (_tenDiags D) nn mm)))
         (seq 0 (_numDiagsM D)) arrRes)
    (seq 0 (_numDiagsN D))
    (np_zeros (db_numN D) (db_numM D) (db_dtype D)).

(** ** Definitions used to state the properties *)

(** The inner product [<u, v>] of two columns: the sum of
    [conj (u i) * v i]. *)
Definition inner_col (u v : ndarray) (k : nat) : cplx :=
  Num.sum (arr_rows u) (fun i => Num.mul (Num.conj (get u i k)) (get v i k)).

(** What one visited term does to the shared variables. *)
Definition absorb (st : build) (f : factor) : build :=
  match f with
  | FScalar s =>
      MkBuild (sc_inner (b_scalar st) s)
              (promote_types (b_datatype st) (sc_dtype s)) (b_factors st)
  | FMatrix A =>
      MkBuild (b_scalar st) (promote_types (b_datatype st) (mat_dtype A))
              (b_factors st ++ [A])
  | _ => st
  end.

(** The terms in the order the traversal meets them: a nested [Product]
    stands for its [content]. *)
Definition flatten (fs : list factor) : list factor :=
  flat_map (fun f => match f with FProduct P => content P | _ => [f] end) fs.

Definition is_other (f : factor) : bool :=
  match f with FOther => true | _ => false end.

(** The scalars and the matrices among flattened terms. *)
Definition scalars_of (fs : list factor) : list npscalar :=
  flat_map (fun f => match f with FScalar s => [s] | _ => [] end) fs.

Definition matrices_of (fs : list factor) : list Matrix :=
  flat_map (fun f => match f with FMatrix A => [A] | _ => [] end) fs.

(** The check as a recursion over the factors after the first: [ii] is
    the index of the factor at the head of [rest]. *)
Fixpoint dims_from (ii numN0 numM' : nat) (rest : list Matrix) : result nat :=
  match rest with
  | [] => Ok numM'
  | fac :: rest' =>
      if negb (numN fac =? numM') then Raise (ValueError_Dimensions ii numN0 numM')
      else dims_from (S ii) numN0 (numM fac) rest'
  end.

(** Every factor's [numM] is the [numN] of the next one. *)
Fixpoint compatible (l : list Matrix) : Prop :=
  match l with
  | A :: (B :: _) as rest => numM A = numN B /\ compatible rest
  | _ => True
  end.

Definition last_numM (l : list Matrix) (d : nat) : nat :=
  List.last (map numM l) d.

(** [A_1.forward(A_2.forward(... A_k.forward(X) ...))] *)
Fixpoint apply_forward (l : list Matrix) (X : ndarray) : result ndarray :=
  match l with
  | [] => Ok X
  | A :: rest => let! Y := apply_forward rest X in forward A Y
  end.

(** [A_k.backward(... A_2.backward(A_1.backward(X)) ...)] *)
Fixpoint apply_backward (l : list Matrix) (X : ndarray) : result ndarray :=
  match l with
  | [] => Ok X
  | A :: rest => let! Y := backward A X in apply_backward rest Y
  end.

Definition at_index {St : Type} (l : list Matrix) (g : Matrix -> St -> result St)
           (i : nat) (s : St) : result St :=
  match l !! i with
  | Some A => g A s
  | None => Raise IndexError
  end.

(** [X0] is [c * X] computed in the element type [dt]: every entry of [X]
    is multiplied by [c] in [dt]; when [c] is one there is no product, only
    the cast to [dt]. *)
Definition is_scaled (c : cplx) (dt : dtype) (X X0 : ndarray) : Prop :=
  arr_dtype X0 = dt /\
  arr_rows X0 = arr_rows X /\
  arr_cols X0 = arr_cols X /\
  forall i j, i < arr_rows X -> j < arr_cols X ->
              get X0 i j = if Num.eqb c Num.one then fit dt (get X i j)
                           else mul_in dt (get X i j) c.

(** The contract of a factor's [forward]: an input of [numM] rows gives an
    output of [numN] rows and as many columns. *)
Definition forward_contract (A : Matrix) : Prop :=
  forall Y, arr_rows Y = numM A ->
            exists Z, forward A Y = Ok Z /\ arr_rows Z = numN A /\
                      arr_cols Z = arr_cols Y.

Definition backward_contract (A : Matrix) : Prop :=
  forall Y, arr_rows Y = numN A ->
            exists Z, backward A Y = Ok Z /\ arr_rows Z = numM A /\
                      arr_cols Z = arr_cols Y.

(** The shapes alone: what a factor's [forward] returns for an input of
    [numM] rows has [numN] rows and as many columns; it may also raise. *)
Definition forward_shape (A : Matrix) : Prop :=
  forall Y Z, arr_rows Y = numM A -> forward A Y = Ok Z ->
              arr_rows Z = numN A /\ arr_cols Z = arr_cols Y.

Definition backward_shape (A : Matrix) : Prop :=
  forall Y Z, arr_rows Y = numN A -> backward A Y = Ok Z ->
              arr_rows Z = numM A /\ arr_cols Z = arr_cols Y.

(** The running scalar of the constructor after the terms [ms]: it starts
    as [np.int8(1)] and takes every scalar met, in the order of the flat
    list, by [np.inner]. *)
Definition running_scalar (ms : list factor) : npscalar :=
  fold_left sc_inner (scalars_of (flatten ms)) (NpScalar Dtype.int8 Num.one).

(** The invariants of a [Product] whose construction from [ms]
    succeeded. *)
Record constructed (ms : list factor) (P : Product) : Prop := {
  cons_terms : existsb is_other ms = false;
  cons_content : _content P = matrices_of (flatten ms);
  cons_nonempty : _content P <> [];
  cons_compatible : compatible (_content P);
  cons_numN : prod_numN P = hd 0 (map numN (_content P));
  cons_numM : prod_numM P = last_numM (_content P) 0;
  cons_scalar_dtype : sc_dtype (_scalar P) = prod_dtype P;
  cons_scalar : _scalar P = sc_astype (running_scalar ms) (prod_dtype P);
  cons_cache : _forwardReferenceMatrix P = None
}.

(** The coefficient of [_backward]. *)
Definition backward_coefficient (s : npscalar) : cplx :=
  if Num.iscomplex (sc_val s) then Num.conj (sc_val s) else sc_val s.

(** A transform that does not narrow the element type of its input. *)
Definition keeps_width (f : ndarray -> result ndarray) : Prop :=
  forall Y Z, f Y = Ok Z -> Dtype.le (arr_dtype Y) (arr_dtype Z).

(** The products of the stored references, from the last factor to the
    first. *)
Definition apply_references (refs : list ndarray) (X : ndarray) : result ndarray :=
  for_each (fun arrRes R => dot R arrRes) (rev refs) X.

(** The entry of the block matrix at [(i, j)]. *)
Definition block_entry (T : tensor3) (i j : nat) : cplx :=
  if i mod ten_d2 T =? j mod ten_d2 T
  then get3 T (i / ten_d2 T) (j / ten_d2 T) (i mod ten_d2 T)
  else Num.zero.

(** The blocks written when the loops stand at [(nn, mm)]. *)
Definition block_done (nn mm a b : nat) : bool :=
  (a <? nn) || ((a =? nn) && (b <? mm)).

(** The array of [_reference] when its loops stand at [(nn, mm)]. *)
Definition reference_at (T : tensor3) (nn mm : nat) (arr : ndarray) : Prop :=
  arr = mk2 (ten_dtype T) (ten_d0 T * ten_d2 T) (ten_d1 T * ten_d2 T)
            (fun i j => if block_done nn mm (i / ten_d2 T) (j / ten_d2 T)
                        then block_entry T i j else Num.zero).

(** ** Example operators *)

(** The array of the given element type with the given integer rows. *)
Definition arr_of (dt : dtype) (rows : list (list Z)) : ndarray :=
  NdArray dt (length rows) (length (hd [] rows))
          (map (map Num.of_Z) rows).

(** The conjugate transpose of an array. *)
Definition arr_H (A : ndarray) : ndarray :=
  mk2 (arr_dtype A) (arr_cols A) (arr_rows A) (fun i j => Num.conj (get A j i)).

(** The operator of a dense array, for the examples: its transforms are
    the matrix products with the array and with its conjugate transpose. *)
Definition Dense (A : ndarray) : Matrix :=
  MkMatrix (arr_rows A) (arr_cols A) (arr_dtype A)
           (fun X => dot A X) (fun X => dot (arr_H A) X) A.

(** A default of [typeExpansion] for the examples: integers of at most 16
    bits expand to [float32], every other type to [float64]. *)
Definition ex_expansion (dt : dtype) : dtype :=
  match dt with
  | Dtype.int8 | Dtype.int16 => Dtype.float32
  | _ => Dtype.float64
  end.

(** Matrices of the shapes 2x3, 3x2 and 2x2. *)
Definition ex_A : Matrix := Dense (arr_of Dtype.int8 [[1; 2; 3]; [4; 5; 6]]%Z).
Definition ex_B : Matrix := Dense (arr_of Dtype.int8 [[1; 0]; [0; 1]; [1; 1]]%Z).
Definition ex_C : Matrix := Dense (arr_of Dtype.int8 [[2; 1]; [1; 1]]%Z).

(** The Python integers 2 and 3. *)
Definition ex_two : npscalar := NpScalar Dtype.int64 (Num.of_Z 2).
Definition ex_three : npscalar := NpScalar Dtype.int64 (Num.of_Z 3).

(** An input of two rows and one column. *)
Definition ex_X : ndarray := arr_of Dtype.int8 [[1]; [1]]%Z.

(** [Product(2, A, 3, B)] *)
Definition ex_P : Product :=
  MkProduct (NpScalar Dtype.float64 (Num.of_Z 6)) [ex_A; ex_B] 2 2
            Dtype.float64 None.

(** A matrix of shape 5x2. *)
Definition ex_E : Matrix :=
  Dense (arr_of Dtype.int8 [[1; 1]; [1; 1]; [1; 1]; [1; 1]; [1; 1]]%Z).

(** [Product(A, B)] *)
Definition ex_AB : Product :=
  MkProduct (NpScalar Dtype.float32 Num.one) [ex_A; ex_B] 2 2 Dtype.float32 None.

(** The 1x1 identity [I], and [Product(2, I)]. *)
Definition ex_I : Matrix := Dense (arr_of Dtype.int8 [[1]]%Z).

Definition ex_2I : Product :=
  MkProduct (NpScalar Dtype.float64 (Num.of_Z 2)) [ex_I] 1 1 Dtype.float64 None.

(** A tensor of shape [(3, 2, 2)]. *)
Definition ex_T322 : tensor3 :=
  Tensor3 Dtype.int8 3 2 2
    (map (map (map Num.of_Z))
         [[[1; 2]; [3; 4]]; [[5; 6]; [7; 8]]; [[9; 10]; [11; 12]]]%Z).

(** A tensor of shape [(2, 2, 2)] with complex entries. *)
Definition ex_T222 : tensor3 :=
  Tensor3 Dtype.complex64 2 2 2
    [[[Num.Cx 1 1; Num.Cx 2 0]; [Num.Cx 0 3; Num.Cx 4 (-1)]];
     [[Num.Cx 5 0; Num.Cx 0 (-6)]; [Num.Cx 7 2; Num.Cx 8 0]]]%Z.

(** A tensor of shape [(1, 2, 2)] with all entries 1. *)
Definition ex_T122 : tensor3 :=
  Tensor3 Dtype.int8 1 2 2 (map (map (map Num.of_Z)) [[[1; 1]; [1; 1]]]%Z).

(** ** Definitions used to state further properties *)

(** The element types of the flattened terms, in the order of the
    traversal. *)
Definition dtypes_of (fs : list factor) : list dtype :=
  flat_map (fun f => match f with
                     | FScalar s => [sc_dtype s]
                     | FMatrix A => [mat_dtype A]
                     | _ => []
                     end) fs.

(** Every factor's [numM] is the [numN] of the next one, by position. *)
Definition fits (l : list Matrix) : Prop :=
  forall i A B, l !! i = Some A -> l !! S i = Some B -> numM A = numN B.

(** The element type of a Product whose terms promote to [dt], under the
    option [typeExpansion]. *)
Definition expanded_dtype (ste : dtype -> dtype) (o : options) (dt : dtype) : dtype :=
  match typeExpansion o with
  | None => promote_types dt (ste dt)
  | Some None => dt
  | Some (Some t) => promote_types dt t
  end.

(** [typeExpansion=None] *)
Definition no_expansion : options := MkOptions false (Some None).

(** [Product(2, A, 3, B, typeExpansion=None)] *)
Definition ex_P_plain : Product :=
  MkProduct (NpScalar Dtype.int64 (Num.of_Z 6)) [ex_A; ex_B] 2 2 Dtype.int64 None.

(** [Product(ex_P, C)]: the scalar and the factors of [ex_P], then [C]. *)
Definition ex_PC : Product :=
  MkProduct (NpScalar Dtype.float64 (Num.of_Z 6)) [ex_A; ex_B; ex_C] 2 2
            Dtype.float64 None.

(** Two arrays of the same shape with the same entries; the element types
    may differ. *)
Definition same_values (Y Z : ndarray) : Prop :=
  arr_rows Y = arr_rows Z /\
  arr_cols Y = arr_cols Z /\
  forall i j, i < arr_rows Y -> j < arr_cols Y -> get Y i j = get Z i j.

(** Two computations that raise the same exception or return arrays with
    the same values. *)
Definition agree (r1 r2 : result ndarray) : Prop :=
  match r1, r2 with
  | Ok Y, Ok Z => same_values Y Z
  | Raise e1, Raise e2 => e1 = e2
  | _, _ => False
  end.

(** A factor whose dense reference has the shape of the factor. *)
Definition reference_shape (A : Matrix) : Prop :=
  arr_rows (reference A) = numN A /\ arr_cols (reference A) = numM A.

(** Modelled from the spec: [helpers.cmath._conjugate], which is not part
    of the sources at hand: the element-wise complex conjugate of an
    array. *)
Definition arr_conjugate (X : ndarray) : ndarray :=
  mk2 (arr_dtype X) (arr_rows X) (arr_cols X) (fun i j => Num.conj (get X i j)).

Section ProductVectors.

(** The [getCol] and [getRow] of the factors, which belong to the base
    class: the vector they return is taken as an array of one column. *)
Variable getCol : Matrix -> nat -> result ndarray.
Variable getRow : Matrix -> nat -> result ndarray.

(** [Product._getCol] *)
Definition Product_getCol (P : Product) (idx : nat) : result ndarray :=
  let cnt := length (_content P) in
  let iii := cnt - 1 in
  let! last := content_at P iii in
  let! arrRes := getCol last idx in
  for_each
    (fun arrRes ii =>
       let iii := cnt - 1 - ii in
       let! A := content_at P iii in forward A arrRes)
    (seq 1 (cnt - 1)) (forward_scale P arrRes).

(** [Product._getRow] *)
Definition Product_getRow (P : Product) (idx : nat) : result ndarray :=
  let cnt := length (_content P) in
  let! first := content_at P 0 in
  let! row := getRow first idx in
  let! arrRes :=
    for_each
      (fun arrRes ii => let! A := content_at P ii in backward A arrRes)
      (seq 1 (cnt - 1)) (backward_scale P (arr_conjugate row)) in
  Ok (arr_conjugate arrRes).

End ProductVectors.

(** The column 0 of the reference of a dense operator, for the examples. *)
Definition ex_getCol (A : Matrix) (idx : nat) : result ndarray :=
  Ok (mk2 (arr_dtype (reference A)) (arr_rows (reference A)) 1
          (fun i _ => get (reference A) i idx)).

(** The row [idx] of the reference of a dense operator, as a column. *)
Definition ex_getRow (A : Matrix) (idx : nat) : result ndarray :=
  Ok (mk2 (arr_dtype (reference A)) (arr_cols (reference A)) 1
          (fun j _ => get (reference A) idx j)).

(** An input of three rows and one column. *)
Definition ex_X3 : ndarray := arr_of Dtype.int8 [[1]; [1]; [1]]%Z.

(** ** Further example operators *)

(** An operator of shape 2x2 whose transforms do not keep the shapes: they
    return five rows whatever they are given. *)
Definition ex_tall : Matrix :=
  MkMatrix 2 2 Dtype.int8
           (fun _ => Ok (np_zeros 5 1 Dtype.int8))
           (fun _ => Ok (np_zeros 5 1 Dtype.int8))
           (np_zeros 2 2 Dtype.int8).

(** An operator of shape 2x2 whose transforms return 8-bit integers
    whatever the element type of their input. *)
Definition ex_narrow : Matrix :=
  MkMatrix 2 2 Dtype.int8
           (fun X => Ok (astype X Dtype.int8))
           (fun X => Ok (astype X Dtype.int8))
           (np_zeros 2 2 Dtype.int8).

(** The Python complex number [1+2j], and [Product(1+2j, A, B)]. *)
Definition ex_j : npscalar := NpScalar Dtype.complex128 (Num.Cx 1 2).

Definition ex_Pj : Product :=
  MkProduct ex_j [ex_A; ex_B] 2 2 Dtype.complex128 None.

(** * Properties *)

(** ** Numbers and element types *)

Module NumFacts.
Import Num.

Lemma cplx_eqb_spec a b : reflect (a = b) (eqb a b).
Proof.
  destruct a as [x y], b as [u v]. unfold eqb. simpl.
  destruct (Z.eqb_spec x u), (Z.eqb_spec y v); simpl; constructor; congruence.
Qed.

Lemma cplx_eqb_refl a : eqb a a = true.
Proof. destruct (cplx_eqb_spec a a); congruence. Qed.

Ltac crush :=
  repeat match goal with a : cplx |- _ => destruct a end;
  unfold add, mul, conj, zero, one, of_Z; simpl; f_equal; ring.

Lemma add_comm a b : add a b = add b a.
Proof. crush. Qed.
Lemma add_assoc a b c : add a (add b c) = add (add a b) c.
Proof. crush. Qed.
Lemma add_0_r a : add a zero = a.
Proof. crush. Qed.
Lemma mul_comm a b : mul a b = mul b a.
Proof. crush. Qed.
Lemma mul_assoc a b c : mul a (mul b c) = mul (mul a b) c.
Proof. crush. Qed.
Lemma mul_1_l a : mul one a = a.
Proof. crush. Qed.
Lemma mul_1_r a : mul a one = a.
Proof. crush. Qed.
Lemma mul_0_l a : mul zero a = zero.
Proof. crush. Qed.
Lemma mul_0_r a : mul a zero = zero.
Proof. crush. Qed.
Lemma mul_add_distr_l a b c : mul a (add b c) = add (mul a b) (mul a c).
Proof. crush. Qed.
Lemma mul_add_distr_r a b c : mul (add a b) c = add (mul a c) (mul b c).
Proof. crush. Qed.
Lemma conj_add a b : conj (add a b) = add (conj a) (conj b).
Proof. crush. Qed.
Lemma conj_mul a b : conj (mul a b) = mul (conj a) (conj b).
Proof. crush. Qed.
Lemma conj_conj a : conj (conj a) = a.
Proof. crush. Qed.

Lemma conj_real a : iscomplex a = false -> conj a = a.
Proof.
  destruct a as [x y]. unfold iscomplex, conj. simpl. intros H.
  apply negb_false_iff in H. apply Z.eqb_eq in H. subst. reflexivity.
Qed.

End NumFacts.

Module DtypeFacts.
Import Dtype.

Lemma dtype_eqb_spec a b : reflect (a = b) (dtype_eqb a b).
Proof. destruct a, b; simpl; constructor; congruence. Qed.

Lemma promote_comm a b : promote_types a b = promote_types b a.
Proof. destruct a, b; reflexivity. Qed.

Lemma promote_assoc a b c :
  promote_types a (promote_types b c) = promote_types (promote_types a b) c.
Proof. destruct a, b, c; reflexivity. Qed.

Lemma promote_idem a : promote_types a a = a.
Proof. destruct a; reflexivity. Qed.

Lemma promote_int8_l a : promote_types int8 a = a.
Proof. destruct a; reflexivity. Qed.

Lemma le_refl a : le a a.
Proof. apply promote_idem. Qed.

Lemma le_trans a b c : le a b -> le b c -> le a c.
Proof.
  unfold le. intros Hab Hbc.
  rewrite <- Hbc, promote_assoc, Hab. reflexivity.
Qed.

Lemma le_promote_l a b : le a (promote_types a b).
Proof. unfold le. rewrite promote_assoc, promote_idem. reflexivity. Qed.

Lemma le_promote_r a b : le b (promote_types a b).
Proof. rewrite promote_comm. apply le_promote_l. Qed.

Lemma promote_lub a b c : le a c -> le b c -> le (promote_types a b) c.
Proof.
  unfold le. intros Ha Hb. rewrite <- promote_assoc, Hb. exact Ha.
Qed.

End DtypeFacts.

(** ** The numpy routines on small inputs *)

Example promote_int32_float32 :
  promote_types Dtype.int32 Dtype.float32 = Dtype.float64.
Proof. reflexivity. Qed.

Example promote_int16_complex64 :
  promote_types Dtype.int16 Dtype.complex64 = Dtype.complex64.
Proof. reflexivity. Qed.

(** [np.array([[1],[2],[3],[4]]).reshape((-1, 2, 1), order='F')] *)
Example reshapeF_3_example :
  reshapeF_3 (arr_of Dtype.int8 [[1]; [2]; [3]; [4]]%Z) 2 1
  = Ok (Tensor3 Dtype.int8 2 2 1
          (map (map (map Num.of_Z)) [[[1]; [3]]; [[2]; [4]]]%Z)).
Proof. reflexivity. Qed.

(** Five entries are not a multiple of two. *)
Example reshapeF_3_indivisible :
  reshapeF_3 (arr_of Dtype.int8 [[1]; [2]; [3]; [4]; [5]]%Z) 2 1
  = Raise ValueError_Shape.
Proof. reflexivity. Qed.

Example reshapeF_2_example :
  reshapeF_2 (Tensor3 Dtype.int8 2 2 1
                (map (map (map Num.of_Z)) [[[1]; [3]]; [[2]; [4]]]%Z)) 1
  = Ok (arr_of Dtype.int8 [[1]; [2]; [3]; [4]]%Z).
Proof. reflexivity. Qed.

Example dot_example :
  dot (arr_of Dtype.int8 [[1; 2]; [3; 4]]%Z) (arr_of Dtype.float32 [[1]; [1]]%Z)
  = Ok (arr_of Dtype.float32 [[3]; [7]]%Z).
Proof. reflexivity. Qed.

Example dot_mismatch :
  dot (arr_of Dtype.int8 [[1; 2]; [3; 4]]%Z) (arr_of Dtype.int8 [[1]]%Z)
  = Raise ValueError_Shape.
Proof. reflexivity. Qed.

(** The machine types: [np.int8(100) * np.int8(2)] wraps around to -56;
    the cast of [2 ** 53 + 1] to [float64] rounds to [2 ** 53], and ties
    go to the even significand. *)
Example sc_inner_wraps :
  sc_inner (NpScalar Dtype.int8 (Num.of_Z 100)) (NpScalar Dtype.int8 (Num.of_Z 2))
  = NpScalar Dtype.int8 (Num.of_Z (-56)).
Proof. reflexivity. Qed.

Example np_inner_wraps :
  np_inner (arr_of Dtype.int8 [[100]]%Z) (NpScalar Dtype.int8 (Num.of_Z 2))
  = arr_of Dtype.int8 [[-56]]%Z.
Proof. reflexivity. Qed.

Example sc_astype_rounds :
  sc_astype (NpScalar Dtype.int64 (Num.of_Z (2 ^ 53 + 1))) Dtype.float64
  = NpScalar Dtype.float64 (Num.of_Z (2 ^ 53)) /\
  sc_astype (NpScalar Dtype.int64 (Num.of_Z (2 ^ 53 + 3))) Dtype.float64
  = NpScalar Dtype.float64 (Num.of_Z (2 ^ 53 + 4)) /\
  sc_astype (NpScalar Dtype.int32 (Num.of_Z (2 ^ 24 + 1))) Dtype.float32
  = NpScalar Dtype.float32 (Num.of_Z (2 ^ 24)).
Proof. repeat split; vm_compute; reflexivity. Qed.

(** ** Loops and arrays *)

Lemma for_each_app {S I : Type} (body : S -> I -> result S) (l1 l2 : list I) (s : S) :
  for_each body (l1 ++ l2) s = let! s' := for_each body l1 s in for_each body l2 s'.
Proof.
  revert s. induction l1 as [|i l1 IH]; intros s; simpl; [reflexivity|].
  destruct (body s i); simpl; auto.
Qed.

Lemma for_each_map {S I J : Type} (body : S -> J -> result S) (h : I -> J)
      (items : list I) (s : S) :
  for_each (fun s i => body s (h i)) items s = for_each body (map h items) s.
Proof.
  revert s. induction items as [|i items IH]; intros s; simpl; [reflexivity|].
  destruct (body s (h i)); simpl; auto.
Qed.

Lemma for_each_ext {S I : Type} (f g : S -> I -> result S) (items : list I) (s : S) :
  (forall s i, In i items -> f s i = g s i) ->
  for_each f items s = for_each g items s.
Proof.
  revert s. induction items as [|i items IH]; intros s H; simpl; [reflexivity|].
  rewrite (H s i) by (left; reflexivity).
  destruct (g s i); simpl; [|reflexivity].
  apply IH. intros s' j Hj. apply H. right. exact Hj.
Qed.

Lemma nth_tabulate {A : Type} (n : nat) (f : nat -> A) (d : A) (i : nat) :
  i < n -> nth i (tabulate n f) d = f i.
Proof.
  intros H. unfold tabulate.
  rewrite (nth_indep _ d (f 0)) by (rewrite length_map, length_seq; exact H).
  rewrite map_nth, seq_nth by exact H. reflexivity.
Qed.

Lemma tabulate_ext {A : Type} (n : nat) (f g : nat -> A) :
  (forall i, i < n -> f i = g i) -> tabulate n f = tabulate n g.
Proof.
  intros H. unfold tabulate. apply map_ext_in. intros i Hi.
  apply in_seq in Hi. apply H. lia.
Qed.

Lemma get_mk2 dt r c f i j :
  i < r -> j < c -> get (mk2 dt r c f) i j = f i j.
Proof.
  intros Hi Hj. unfold get, mk2. simpl.
  rewrite nth_tabulate by exact Hi. apply nth_tabulate. exact Hj.
Qed.

Lemma get3_mk3 dt d0 d1 d2 f a b c :
  a < d0 -> b < d1 -> c < d2 -> get3 (mk3 dt d0 d1 d2 f) a b c = f a b c.
Proof.
  intros Ha Hb Hc. unfold get3, mk3. simpl.
  rewrite nth_tabulate by exact Ha. rewrite nth_tabulate by exact Hb.
  apply nth_tabulate. exact Hc.
Qed.

Lemma mk2_ext dt r c f g :
  (forall i j, i < r -> j < c -> f i j = g i j) -> mk2 dt r c f = mk2 dt r c g.
Proof.
  intros H. unfold mk2. f_equal. apply tabulate_ext. intros i Hi.
  apply tabulate_ext. intros j Hj. apply H; assumption.
Qed.

Lemma sum_ext n f g :
  (forall i, i < n -> f i = g i) -> Num.sum n f = Num.sum n g.
Proof.
  unfold Num.sum. intros H.
  assert (G : forall m k acc, k + m <= n ->
            fold_left (fun acc i => Num.add acc (f i)) (seq k m) acc =
            fold_left (fun acc i => Num.add acc (g i)) (seq k m) acc).
  { induction m as [|m IH]; intros k acc Hk; simpl; [reflexivity|].
    rewrite (H k) by lia. apply IH. lia. }
  apply G. lia.
Qed.

(** ** Flattening *)

Lemma fold_absorb_matrices (l : list Matrix) (st : build) :
  fold_left absorb (map FMatrix l) st =
  MkBuild (b_scalar st)
          (fold_left promote_types (map mat_dtype l) (b_datatype st))
          (b_factors st ++ l).
Proof.
  revert st. induction l as [|A l IH]; intros st; simpl.
  - rewrite app_nil_r. destruct st; reflexivity.
  - rewrite IH. simpl. rewrite <- app_assoc. reflexivity.
Qed.

Lemma addFactors_matrices (l : list Matrix) (st : build) :
  addFactors (map FMatrix l) st = Ok (fold_left absorb (map FMatrix l) st).
Proof.
  revert st. induction l as [|A l IH]; intros st; simpl; simp addFactors;
    auto.
Qed.

Lemma addFactors_content (P : Product) (st : build) :
  addFactors (content P) st = Ok (fold_left absorb (content P) st).
Proof.
  unfold content. destruct (sc_ne_1 (_scalar P)); simpl; simp addFactors;
    apply addFactors_matrices.
Qed.

(** [__addFactors] raises exactly when a term is neither a scalar nor a
    matrix; otherwise it absorbs the flattened terms in order. *)
Lemma addFactors_spec (fs : list factor) (st : build) :
  addFactors fs st =
  if existsb is_other fs then Raise TypeError_NonMatrixTerm
  else Ok (fold_left absorb (flatten fs) st).
Proof.
  revert st. induction fs as [|f fs IH]; intros st; simp addFactors.
  - reflexivity.
  - destruct f as [s|A|P|]; simp addFactors; simpl.
    + apply IH.
    + apply IH.
    + rewrite addFactors_content. simpl. rewrite IH.
      destruct (existsb is_other fs); [reflexivity|].
      rewrite fold_left_app. reflexivity.
    + reflexivity.
Qed.

Lemma absorb_factors (l : list factor) (st : build) :
  b_factors (fold_left absorb l st) = b_factors st ++ matrices_of l.
Proof.
  revert st. induction l as [|f l IH]; intros st; simpl.
  - rewrite app_nil_r. reflexivity.
  - rewrite IH. destruct f; simpl; try reflexivity.
    rewrite <- app_assoc. reflexivity.
Qed.

Lemma absorb_scalar (l : list factor) (st : build) :
  b_scalar (fold_left absorb l st) =
  fold_left sc_inner (scalars_of l) (b_scalar st).
Proof.
  revert st. induction l as [|f l IH]; intros st; simpl; [reflexivity|].
  rewrite IH. destruct f; reflexivity.
Qed.

(** ** The check of the dimensions *)

Lemma check_dims_loop (pre rest : list Matrix) (n0 m : nat) :
  for_each
    (fun numM' ii =>
       match (pre ++ rest) !! ii with
       | None => Raise IndexError
       | Some fac =>
           if negb (numN fac =? numM') then Raise (ValueError_Dimensions ii n0 numM')
           else Ok (numM fac)
       end)
    (seq (length pre) (length rest)) m
  = dims_from (length pre) n0 m rest.
Proof.
  revert pre m. induction rest as [|fac rest IH]; intros pre m; simpl; [reflexivity|].
  rewrite lookup_app_r by lia. rewrite Nat.sub_diag. simpl.
  destruct (negb (numN fac =? m)); simpl; [reflexivity|].
  specialize (IH (pre ++ [fac]) (numM fac)).
  rewrite <- app_assoc in IH. simpl in IH.
  rewrite length_app in IH. simpl in IH. rewrite Nat.add_1_r in IH.
  exact IH.
Qed.

Lemma check_dims_cons (A : Matrix) (rest : list Matrix) (n0 m : nat) :
  check_dims (A :: rest) n0 m = dims_from 1 n0 m rest.
Proof.
  unfold check_dims. replace (length (A :: rest) - 1) with (length rest)
    by (simpl; lia).
  apply (check_dims_loop [A] rest n0 m).
Qed.

Lemma dims_from_ok (A : Matrix) (rest : list Matrix) (ii n0 m' : nat) :
  dims_from ii n0 (numM A) rest = Ok m' ->
  compatible (A :: rest) /\ m' = last_numM (A :: rest) 0.
Proof.
  revert A ii. induction rest as [|B rest IH]; intros A ii; simpl.
  - intros H. injection H as <-. split; [exact I | reflexivity].
  - destruct (Nat.eqb_spec (numN B) (numM A)) as [E|E]; simpl; [|discriminate].
    intros H. apply IH in H. destruct H as [Hc ->].
    split; [split; [symmetry; exact E | exact Hc] | reflexivity].
Qed.

Lemma dims_from_compatible (A : Matrix) (rest : list Matrix) (ii n0 : nat) :
  compatible (A :: rest) ->
  dims_from ii n0 (numM A) rest = Ok (last_numM (A :: rest) 0).
Proof.
  revert A ii. induction rest as [|B rest IH]; intros A ii; simpl; [reflexivity|].
  intros [E Hc]. rewrite E, Nat.eqb_refl. simpl. apply IH. exact Hc.
Qed.

(** The first pair of factors that do not fit decides the exception. *)
Lemma dims_from_mismatch (i : nat) :
  forall (A : Matrix) (rest : list Matrix) (ii n0 : nat) (Ai Aj : Matrix),
    (A :: rest) !! i = Some Ai ->
    (A :: rest) !! S i = Some Aj ->
    numM Ai <> numN Aj ->
    (forall j B C, j < i -> (A :: rest) !! j = Some B ->
                   (A :: rest) !! S j = Some C -> numM B = numN C) ->
    dims_from ii n0 (numM A) rest = Raise (ValueError_Dimensions (ii + i) n0 (numM Ai)).
Proof.
  induction i as [|i IH]; intros A rest ii n0 Ai Aj Hi Hj Hne Hbefore.
  - simpl in Hi. injection Hi as <-. destruct rest as [|B rest]; [discriminate|].
    simpl in Hj. injection Hj as <-. simpl.
    destruct (Nat.eqb_spec (numN B) (numM A)) as [E|E]; [congruence|].
    simpl. rewrite Nat.add_0_r. reflexivity.
  - destruct rest as [|B rest]; [discriminate|]. simpl.
    assert (E : numM A = numN B) by (apply (Hbefore 0 A B); [lia | reflexivity..]).
    rewrite E, Nat.eqb_refl. simpl.
    replace (ii + S i) with (S ii + i) by lia.
    apply (IH B rest (S ii) n0 Ai Aj); [exact Hi | exact Hj | exact Hne |].
    intros j C1 C2 Hlt H1 H2. apply (Hbefore (S j) C1 C2); [lia | exact H1 | exact H2].
Qed.

(** ** The loops over the factors *)

Lemma index_loop_up {St : Type} (g : Matrix -> St -> result St)
      (pre l : list Matrix) (s : St) :
  for_each (fun s ii => at_index (pre ++ l) g ii s) (seq (length pre) (length l)) s
  = for_each (fun s A => g A s) l s.
Proof.
  revert pre s. induction l as [|A l IH]; intros pre s; simpl; [reflexivity|].
  unfold at_index at 1. rewrite lookup_app_r by lia. rewrite Nat.sub_diag. simpl.
  destruct (g A s) as [s'|e]; simpl; [|reflexivity].
  specialize (IH (pre ++ [A]) s'). rewrite <- app_assoc in IH. simpl in IH.
  rewrite length_app in IH. simpl in IH. rewrite Nat.add_1_r in IH. exact IH.
Qed.

Lemma index_loop_down {St : Type} (g : Matrix -> St -> result St)
      (l : list Matrix) (s : St) :
  for_each (fun s ii => at_index l g (length l - 1 - ii) s) (seq 0 (length l)) s
  = for_each (fun s A => g A s) (rev l) s.
Proof.
  revert s. induction l as [|A l IH] using rev_ind; intros s; [reflexivity|].
  rewrite rev_app_distr, length_app. simpl rev. simpl length.
  rewrite Nat.add_1_r. cbn [seq for_each app].
  unfold at_index at 1.
  replace (S (length l) - 1 - 0) with (length l) by lia.
  rewrite lookup_app_r by lia. rewrite Nat.sub_diag. simpl.
  destruct (g A s) as [s'|e]; simpl; [|reflexivity].
  rewrite <- IH. rewrite <- seq_shift, <- for_each_map.
  apply for_each_ext. intros s1 i Hi. apply in_seq in Hi.
  unfold at_index.
  match goal with
  | |- context [(l ++ [A]) !! ?k] => replace k with (length l - 1 - i) by lia
  end.
  rewrite lookup_app_l by lia. reflexivity.
Qed.

Lemma for_each_rev_forward (l : list Matrix) (X : ndarray) :
  for_each (fun s A => forward A s) (rev l) X = apply_forward l X.
Proof.
  induction l as [|A l IH]; simpl; [reflexivity|].
  rewrite for_each_app, IH. destruct (apply_forward l X); simpl; [|reflexivity].
  destruct (forward A a); reflexivity.
Qed.

Lemma for_each_backward (l : list Matrix) (X : ndarray) :
  for_each (fun s A => backward A s) l X = apply_backward l X.
Proof.
  revert X. induction l as [|A l IH]; intros X; simpl; [reflexivity|].
  destruct (backward A X); simpl; auto.
Qed.

Lemma Product_forward_chain (P : Product) (X : ndarray) :
  Product_forward P X = apply_forward (_content P) (forward_scale P X).
Proof.
  unfold Product_forward. rewrite <- for_each_rev_forward.
  rewrite <- (index_loop_down (fun A s => forward A s)).
  apply for_each_ext. intros s i _. unfold content_at, at_index.
  destruct (_content P !! _); reflexivity.
Qed.

Lemma Product_backward_chain (P : Product) (X : ndarray) :
  Product_backward P X = apply_backward (_content P) (backward_scale P X).
Proof.
  unfold Product_backward. rewrite <- for_each_backward.
  rewrite <- (index_loop_up (fun A s => backward A s) [] (_content P)).
  apply for_each_ext. intros s i _. unfold content_at, at_index. simpl.
  destruct (_content P !! _); reflexivity.
Qed.

(** ** What a constructed Product satisfies *)

Lemma Product_init_constructed ste (ms : list factor) (o : options) (P : Product) :
  Product_init ste ms o = Ok P -> constructed ms P.
Proof.
  unfold Product_init. rewrite addFactors_spec.
  destruct (existsb is_other ms) eqn:Hother; simpl; [discriminate|].
  set (st := fold_left absorb (flatten ms) _).
  assert (Hf : b_factors st = matrices_of (flatten ms)).
  { unfold st. rewrite absorb_factors. reflexivity. }
  assert (Hs : b_scalar st = running_scalar ms).
  { unfold st. rewrite absorb_scalar. reflexivity. }
  destruct (b_factors st) as [|A rest] eqn:E; [discriminate|].
  rewrite check_dims_cons.
  destruct (dims_from 1 (numN A) (numM A) rest) as [m'|e] eqn:D; simpl; [|discriminate].
  intros H. injection H as <-. apply dims_from_ok in D. destruct D as [Hc ->].
  split; simpl; try assumption; try reflexivity.
  - discriminate.
  - rewrite Hs. reflexivity.
Qed.

(** Every element type holds the number one. *)
Lemma fit_one (dt : dtype) : fit dt Num.one = Num.one.
Proof. destruct dt; reflexivity. Qed.

Lemma sc_astype_one (d dt : dtype) :
  sc_val (sc_astype (NpScalar d Num.one) dt) = Num.one.
Proof. apply fit_one. Qed.

Lemma conj_eqb_one (a : cplx) :
  Num.eqb (Num.conj a) Num.one = Num.eqb a Num.one.
Proof.
  destruct a as [x y]. unfold Num.eqb, Num.conj. simpl.
  destruct (Z.eqb_spec y 0) as [->|H]; [reflexivity|].
  destruct (Z.eqb_spec (- y) 0); [lia|reflexivity].
Qed.

Lemma forward_scale_spec (P : Product) (X : ndarray) :
  sc_dtype (_scalar P) = prod_dtype P ->
  is_scaled (sc_val (_scalar P)) (promote_types (arr_dtype X) (prod_dtype P))
            X (forward_scale P X).
Proof.
  intros Hd. unfold forward_scale, sc_ne_1, is_scaled, np_inner, astype.
  cbv zeta. rewrite Hd.
  destruct (Num.eqb (sc_val (_scalar P)) Num.one); simpl;
    (split; [reflexivity|]); (split; [reflexivity|]); (split; [reflexivity|]);
    intros i j Hi Hj; apply get_mk2; assumption.
Qed.

Lemma backward_scale_spec (P : Product) (X : ndarray) :
  sc_dtype (_scalar P) = prod_dtype P ->
  is_scaled (backward_coefficient (_scalar P))
            (promote_types (arr_dtype X) (prod_dtype P)) X (backward_scale P X).
Proof.
  intros Hd.
  unfold backward_scale, backward_coefficient, sc_ne_1, is_scaled, np_inner,
    astype, sc_conjugate.
  cbv zeta. simpl sc_dtype. simpl sc_val. rewrite Hd.
  destruct (Num.iscomplex (sc_val (_scalar P)));
    [rewrite conj_eqb_one|];
    (destruct (Num.eqb (sc_val (_scalar P)) Num.one); simpl;
     (split; [reflexivity|]); (split; [reflexivity|]); (split; [reflexivity|]);
     intros i j Hi Hj; apply get_mk2; assumption).
Qed.

Lemma apply_forward_shape (l : list Matrix) (X : ndarray) :
  l <> [] -> compatible l -> Forall forward_contract l ->
  arr_rows X = last_numM l 0 ->
  exists Y, apply_forward l X = Ok Y /\
            arr_rows Y = hd 0 (map numN l) /\ arr_cols Y = arr_cols X.
Proof.
  induction l as [|A l IH]; [congruence|]. intros _ Hc Hf Hx.
  inversion Hf as [|? ? HA Hl]; subst. simpl.
  destruct l as [|B l].
  - simpl. destruct (HA X Hx) as (Z & E & Hr & Hk). exists Z. auto.
  - destruct Hc as [Hab Hc].
    destruct IH as (Y & E & Hr & Hk); [discriminate | exact Hc | exact Hl | exact Hx |].
    rewrite E. simpl.
    destruct (HA Y) as (Z & EZ & HrZ & HkZ); [simpl in Hr; congruence|].
    exists Z. repeat split; [exact EZ | exact HrZ | congruence].
Qed.

Lemma apply_backward_shape (l : list Matrix) (X : ndarray) :
  l <> [] -> compatible l -> Forall backward_contract l ->
  arr_rows X = hd 0 (map numN l) ->
  exists Y, apply_backward l X = Ok Y /\
            arr_rows Y = last_numM l 0 /\ arr_cols Y = arr_cols X.
Proof.
  revert X. induction l as [|A l IH]; [congruence|]. intros X _ Hc Hf Hx.
  inversion Hf as [|? ? HA Hl]; subst. simpl.
  destruct (HA X Hx) as (Z & EZ & HrZ & HkZ). rewrite EZ. simpl.
  destruct l as [|B l].
  - simpl. exists Z. auto.
  - destruct Hc as [Hab Hc].
    destruct (IH Z) as (Y & E & Hr & Hk);
      [discriminate | exact Hc | exact Hl | simpl; congruence |].
    exists Y. repeat split; [exact E | exact Hr | congruence].
Qed.

(** ** Example operators *)

Lemma Dense_forward_contract (A : ndarray) : forward_contract (Dense A).
Proof.
  intros Y HY. simpl in *. unfold dot. rewrite <- HY, Nat.eqb_refl.
  eexists. split; [reflexivity|]. split; reflexivity.
Qed.

Lemma Dense_backward_contract (A : ndarray) : backward_contract (Dense A).
Proof.
  intros Y HY. simpl in *. unfold dot. simpl. rewrite <- HY, Nat.eqb_refl.
  eexists. split; [reflexivity|]. split; reflexivity.
Qed.

Lemma ex_P_init :
  Product_init ex_expansion
    [FScalar ex_two; FMatrix ex_A; FScalar ex_three; FMatrix ex_B] no_options
  = Ok ex_P.
Proof. reflexivity. Qed.

(** ** The specified properties *)

Lemma apply_forward_shape_of (l : list Matrix) (X Y : ndarray) :
  l <> [] -> compatible l -> Forall forward_shape l ->
  arr_rows X = last_numM l 0 ->
  apply_forward l X = Ok Y ->
  arr_rows Y = hd 0 (map numN l) /\ arr_cols Y = arr_cols X.
Proof.
  revert Y. induction l as [|A l IH]; [congruence|]. intros Y _ Hc Hf Hx HY.
  inversion Hf as [|? ? HA Hl]; subst. simpl in HY.
  destruct l as [|B l].
  - simpl in *. exact (HA X Y Hx HY).
  - destruct Hc as [Hab Hc].
    destruct (apply_forward (B :: l) X) as [W|e] eqn:E; simpl in HY;
      [|discriminate].
    destruct (IH W) as [Hr Hk];
      [discriminate | exact Hc | exact Hl | exact Hx | reflexivity |].
    destruct (HA W Y) as [HrY HkY]; [simpl in Hr; congruence | exact HY |].
    split; [exact HrY | congruence].
Qed.

Lemma apply_backward_shape_of (l : list Matrix) (X Y : ndarray) :
  l <> [] -> compatible l -> Forall backward_shape l ->
  arr_rows X = hd 0 (map numN l) ->
  apply_backward l X = Ok Y ->
  arr_rows Y = last_numM l 0 /\ arr_cols Y = arr_cols X.
Proof.
  revert X. induction l as [|A l IH]; [congruence|]. intros X _ Hc Hf Hx HY.
  inversion Hf as [|? ? HA Hl]; subst. simpl in HY.
  destruct (backward A X) as [Z|e] eqn:EZ; simpl in HY; [|discriminate].
  destruct (HA X Z Hx EZ) as [HrZ HkZ].
  destruct l as [|B l].
  - simpl in *. injection HY as <-. split; assumption.
  - destruct Hc as [Hab Hc].
    destruct (IH Z) as [Hr Hk];
      [discriminate | exact Hc | exact Hl | simpl; congruence | exact HY |].
    split; [exact Hr | congruence].
Qed.

Lemma Dense_forward_shape (A : ndarray) : forward_shape (Dense A).
Proof.
  intros Y Z _. simpl. unfold dot.
  destruct (arr_cols A =? arr_rows Y); [|discriminate].
  intros H. injection H as <-. split; reflexivity.
Qed.

Lemma Dense_backward_shape (A : ndarray) : backward_shape (Dense A).
Proof.
  intros Y Z _. simpl. unfold dot.
  destruct (arr_cols (arr_H A) =? arr_rows Y); [|discriminate].
  intros H. injection H as <-. split; reflexivity.
Qed.

Lemma ex_Pj_init :
  Product_init ex_expansion [FScalar ex_j; FMatrix ex_A; FMatrix ex_B] no_options
  = Ok ex_Pj.
Proof. reflexivity. Qed.

(** C1 as stated fails: the rows of the result are those that the first
    factor's [forward] returns, and [Product(T)], for an operator [T] of
    shape 2x2 whose [forward] returns five rows, returns five rows for an
    input of two. *)
Lemma Product_forward_rows_from_factor :
  ~ (forall ste (ms : list factor) (o : options) (P : Product) (X : ndarray),
       Product_init ste ms o = Ok P ->
       arr_rows X = prod_numM P ->
       exists X0 Y,
         is_scaled (sc_val (_scalar P))
                   (promote_types (arr_dtype X) (prod_dtype P)) X X0 /\
         Product_forward P X = apply_forward (matrices_of (flatten ms)) X0 /\
         Product_forward P X = Ok Y /\
         arr_rows Y = prod_numN P /\ arr_cols Y = arr_cols X).
Proof.
  intros H.
  destruct (H ex_expansion [FMatrix ex_tall] no_options _ ex_X eq_refl eq_refl)
    as (X0 & Y & _ & _ & HY & Hr & _).
  vm_compute in HY. injection HY as <-. discriminate Hr.
Qed.

(** C1, amended: for a constructed Product with flattened factors
    [A_1 .. A_k] and scalar [s], and every input [X], [forward(X)] is
    [A_1.forward(A_2.forward(... A_k.forward(s * X) ...))], raising what a
    factor raises; [s * X] is [np.inner(X, s)], the product computed entry
    by entry in the promotion of the element types of [X] and of the
    Product, and the cast of [X] to that type when [s] is 1.  When [X] has
    [numM] rows and what every factor's [forward] returns for an input of
    its [numM] rows has its [numN] rows and as many columns, a returned
    result has [numN] rows and the columns of [X]; when moreover every
    factor's [forward] returns for every such input, [forward(X)]
    returns. *)
Theorem Product_forward_spec ste (ms : list factor) (o : options)
        (P : Product) (X : ndarray) :
  Product_init ste ms o = Ok P ->
  exists X0,
    is_scaled (sc_val (_scalar P))
              (promote_types (arr_dtype X) (prod_dtype P)) X X0 /\
    Product_forward P X = apply_forward (matrices_of (flatten ms)) X0 /\
    (Forall forward_shape (_content P) -> arr_rows X = prod_numM P ->
     forall Y, Product_forward P X = Ok Y ->
               arr_rows Y = prod_numN P /\ arr_cols Y = arr_cols X) /\
    (Forall forward_contract (_content P) -> arr_rows X = prod_numM P ->
     exists Y, Product_forward P X = Ok Y).
Proof.
  intros Hinit. apply Product_init_constructed in Hinit.
  destruct Hinit as [_ Hc Hne Hcomp HN HM Hd _ _].
  pose proof (forward_scale_spec P X Hd) as Hs.
  exists (forward_scale P X). rewrite <- Hc, Product_forward_chain.
  split; [exact Hs|]. split; [reflexivity|].
  destruct Hs as (_ & Hrows & Hcols & _). split.
  - intros Hf Hx Y HY.
    destruct (apply_forward_shape_of (_content P) (forward_scale P X) Y)
      as [Hr Hk]; try assumption; [congruence|].
    split; congruence.
  - intros Hf Hx.
    destruct (apply_forward_shape (_content P) (forward_scale P X))
      as (Y & E & _); try assumption; [congruence|].
    exists Y. exact E.
Qed.

Lemma Product_forward_spec_witness :
  exists X0 Y,
    is_scaled (Num.of_Z 6) Dtype.float64 ex_X X0 /\
    Product_forward ex_P ex_X = apply_forward [ex_A; ex_B] X0 /\
    Product_forward ex_P ex_X = Ok Y /\
    arr_rows Y = 2 /\ arr_cols Y = 1.
Proof.
  destruct (Product_forward_spec ex_expansion
              [FScalar ex_two; FMatrix ex_A; FScalar ex_three; FMatrix ex_B]
              no_options ex_P ex_X eq_refl) as (X0 & Hs & Hchain & Hshape & Hret).
  destruct Hret as [Y HY];
    [repeat constructor; apply Dense_forward_contract | reflexivity |].
  assert (Hf : Forall forward_shape [ex_A; ex_B]).
  { constructor; [apply Dense_forward_shape|].
    constructor; [apply Dense_forward_shape|]. constructor. }
  destruct (Hshape Hf eq_refl Y HY) as [Hr Hk].
  exists X0, Y. split; [exact Hs|]. split; [exact Hchain|].
  split; [exact HY|]. split; assumption.
Defined.

(** C2 as stated fails: the rows of the result are those that the last
    factor's [backward] returns, and [Product(T)], for an operator [T] of
    shape 2x2 whose [backward] returns five rows, returns five rows for an
    input of two. *)
Lemma Product_backward_rows_from_factor :
  ~ (forall ste (ms : list factor) (o : options) (P : Product) (X : ndarray),
       Product_init ste ms o = Ok P ->
       arr_rows X = prod_numN P ->
       exists X0 Y,
         is_scaled (backward_coefficient (_scalar P))
                   (promote_types (arr_dtype X) (prod_dtype P)) X X0 /\
         Product_backward P X = apply_backward (matrices_of (flatten ms)) X0 /\
         Product_backward P X = Ok Y /\
         arr_rows Y = prod_numM P /\ arr_cols Y = arr_cols X).
Proof.
  intros H.
  destruct (H ex_expansion [FMatrix ex_tall] no_options _ ex_X eq_refl eq_refl)
    as (X0 & Y & _ & _ & HY & Hr & _).
  vm_compute in HY. injection HY as <-. discriminate Hr.
Qed.

(** C2, amended: for a constructed Product with flattened factors
    [A_1 .. A_k] and scalar [s], and every input [X], [backward(X)] is
    [A_k.backward(... A_2.backward(A_1.backward(c * X)) ...)], raising what
    a factor raises; [c] is the conjugate of [s] when [s] is complex and
    [s] itself otherwise, and [c * X] is [np.inner(X, c)], the product
    computed entry by entry in the promotion of the element types of [X]
    and of the Product, and the cast of [X] to that type when [s] is 1.
    When [X] has [numN] rows and what every factor's [backward] returns
    for an input of its [numN] rows has its [numM] rows and as many
    columns, a returned result has [numM] rows and the columns of [X];
    when moreover every factor's [backward] returns for every such input,
    [backward(X)] returns. *)
Theorem Product_backward_spec ste (ms : list factor) (o : options)
        (P : Product) (X : ndarray) :
  Product_init ste ms o = Ok P ->
  exists X0,
    is_scaled (backward_coefficient (_scalar P))
              (promote_types (arr_dtype X) (prod_dtype P)) X X0 /\
    Product_backward P X = apply_backward (matrices_of (flatten ms)) X0 /\
    (Forall backward_shape (_content P) -> arr_rows X = prod_numN P ->
     forall Y, Product_backward P X = Ok Y ->
               arr_rows Y = prod_numM P /\ arr_cols Y = arr_cols X) /\
    (Forall backward_contract (_content P) -> arr_rows X = prod_numN P ->
     exists Y, Product_backward P X = Ok Y).
Proof.
  intros Hinit. apply Product_init_constructed in Hinit.
  destruct Hinit as [_ Hc Hne Hcomp HN HM Hd _ _].
  pose proof (backward_scale_spec P X Hd) as Hs.
  exists (backward_scale P X). rewrite <- Hc, Product_backward_chain.
  split; [exact Hs|]. split; [reflexivity|].
  destruct Hs as (_ & Hrows & Hcols & _). split.
  - intros Hf Hx Y HY.
    destruct (apply_backward_shape_of (_content P) (backward_scale P X) Y)
      as [Hr Hk]; try assumption; [congruence|].
    split; congruence.
  - intros Hf Hx.
    destruct (apply_backward_shape (_content P) (backward_scale P X))
      as (Y & E & _); try assumption; [congruence|].
    exists Y. exact E.
Qed.

(** [Product(1+2j, A, B)]: the input is multiplied by [1-2j]. *)
Lemma Product_backward_spec_witness :
  exists X0 Y,
    is_scaled (Num.Cx 1 (-2)) Dtype.complex128 ex_X X0 /\
    get X0 0 0 = Num.Cx 1 (-2) /\
    Product_backward ex_Pj ex_X = apply_backward [ex_A; ex_B] X0 /\
    Product_backward ex_Pj ex_X = Ok Y /\
    arr_rows Y = 2 /\ arr_cols Y = 1.
Proof.
  destruct (Product_backward_spec ex_expansion
              [FScalar ex_j; FMatrix ex_A; FMatrix ex_B]
              no_options ex_Pj ex_X eq_refl) as (X0 & Hs & Hchain & Hshape & Hret).
  destruct Hret as [Y HY];
    [repeat constructor; apply Dense_backward_contract | reflexivity |].
  assert (Hf : Forall backward_shape [ex_A; ex_B]).
  { constructor; [apply Dense_backward_shape|].
    constructor; [apply Dense_backward_shape|]. constructor. }
  destruct (Hshape Hf eq_refl Y HY) as [Hr Hk].
  exists X0, Y. split; [exact Hs|]. split.
  - destruct Hs as (_ & _ & _ & Hg). rewrite (Hg 0 0); [reflexivity| |];
      simpl; lia.
  - split; [exact Hchain|]. split; [exact HY|]. split; assumption.
Defined.

(** C5 as stated fails: the exception for [Product(A, E)] with [A] of shape
    2x3 and [E] of shape 5x2 is formatted from the index 1 and the sizes 2
    and 3, the shape of [A]; the size 5 of [E] that does not fit is not
    among them. *)
Lemma dimension_error_lacks_second_size :
  ~ (forall ste (A B : Matrix) (o : options),
       numM A <> numN B ->
       exists ii a b,
         Product_init ste [FMatrix A; FMatrix B] o
         = Raise (ValueError_Dimensions ii a b) /\
         ((a = numM A /\ b = numN B) \/ (a = numN B /\ b = numM A))).
Proof.
  intros H.
  destruct (H ex_expansion ex_A ex_E no_options) as (ii & a & b & E & Hab).
  - simpl. lia.
  - assert (E' : Product_init ex_expansion [FMatrix ex_A; FMatrix ex_E] no_options
                 = Raise (ValueError_Dimensions 1 2 3)) by reflexivity.
    rewrite E' in E. injection E as <- <- <-. simpl in Hab. lia.
Qed.

(** C5, amended: when the flattened factors first fail to fit between the
    positions [i] and [i + 1], the construction raises the dimension error
    formatted from the index [i + 1], the [numN] of the first factor and
    the [numM] of factor [i]; no object is returned. *)
Theorem Product_init_dimension_error ste (ms : list factor) (o : options)
        (i : nat) (A0 Ai Aj : Matrix) :
  existsb is_other ms = false ->
  matrices_of (flatten ms) !! 0 = Some A0 ->
  matrices_of (flatten ms) !! i = Some Ai ->
  matrices_of (flatten ms) !! S i = Some Aj ->
  numM Ai <> numN Aj ->
  (forall j B C, j < i -> matrices_of (flatten ms) !! j = Some B ->
                 matrices_of (flatten ms) !! S j = Some C -> numM B = numN C) ->
  Product_init ste ms o = Raise (ValueError_Dimensions (S i) (numN A0) (numM Ai)).
Proof.
  intros Hother H0 Hi Hj Hne Hbefore.
  unfold Product_init. rewrite addFactors_spec, Hother. simpl.
  rewrite absorb_factors. simpl.
  destruct (matrices_of (flatten ms)) as [|A rest] eqn:E; [discriminate|].
  simpl in H0. injection H0 as <-.
  rewrite check_dims_cons.
  rewrite (dims_from_mismatch i A rest 1 (numN A) Ai Aj Hi Hj Hne Hbefore).
  reflexivity.
Qed.

Lemma Product_init_dimension_error_witness :
  Product_init ex_expansion [FMatrix ex_A; FMatrix ex_B; FMatrix ex_E] no_options
  = Raise (ValueError_Dimensions 2 2 2).
Proof.
  apply (Product_init_dimension_error ex_expansion
           [FMatrix ex_A; FMatrix ex_B; FMatrix ex_E] no_options 1 ex_A ex_B ex_E).
  - reflexivity.
  - reflexivity.
  - reflexivity.
  - reflexivity.
  - simpl. lia.
  - intros j B C Hj HB HC. assert (j = 0) by lia. subst j.
    simpl in HB, HC. injection HB as <-. injection HC as <-. reflexivity.
Defined.

(** A nested [Product] that carries no scalar is flattened to the terms it
    was built from. *)
Lemma Product_init_nested ste (inner rest : list factor) (o1 o : options)
      (P1 : Product) :
  Product_init ste inner o1 = Ok P1 ->
  scalars_of (flatten inner) = [] ->
  Product_init ste (FProduct P1 :: rest) o = Product_init ste (inner ++ rest) o.
Proof.
  intros H1 Hs. apply Product_init_constructed in H1.
  destruct H1 as [Hother Hc _ _ _ _ _ Hval _].
  unfold running_scalar in Hval. rewrite Hs in Hval. simpl fold_left in Hval.
  assert (Hcontent : content P1 = flatten inner).
  { unfold content, sc_ne_1.
    rewrite Hval, sc_astype_one, NumFacts.cplx_eqb_refl. simpl.
    rewrite Hc. clear - Hother Hs.
    unfold flatten, matrices_of, scalars_of in *.
    induction inner as [|f inner IH]; [reflexivity|].
    simpl in *. apply orb_false_iff in Hother. destruct Hother as [Hf Hother].
    rewrite !flat_map_app in *. apply app_eq_nil in Hs. destruct Hs as [Hs1 Hs2].
    rewrite map_app, IH by assumption. f_equal.
    destruct f as [s|A|P|]; simpl in *; try discriminate; try reflexivity.
    unfold content in *. destruct (sc_ne_1 (_scalar P)); [discriminate|].
    simpl in *. clear. induction (_content P) as [|B l IHl]; [reflexivity|].
    simpl. rewrite IHl. reflexivity. }
  unfold Product_init. rewrite !addFactors_spec.
  simpl existsb at 1. rewrite existsb_app, Hother. simpl.
  unfold flatten at 1. simpl flat_map. fold (flatten rest).
  rewrite Hcontent. unfold flatten at 3. rewrite flat_map_app.
  reflexivity.
Qed.

(** C6: for operators [A], [B], [C] that fit, [Product(Product(A, B), C)]
    and [Product(A, B, C)] are both constructed, with the same [content] in
    the same order, the same scalar, and the same results of [forward] and
    [backward] on every input. *)
Theorem Product_flatten_nested ste (A B C : Matrix) (o1 o : options) (P1 : Product) :
  Product_init ste [FMatrix A; FMatrix B] o1 = Ok P1 ->
  numM B = numN C ->
  exists Pn Pf,
    Product_init ste [FProduct P1; FMatrix C] o = Ok Pn /\
    Product_init ste [FMatrix A; FMatrix B; FMatrix C] o = Ok Pf /\
    content Pn = [FMatrix A; FMatrix B; FMatrix C] /\
    content Pn = content Pf /\
    _scalar Pn = _scalar Pf /\
    (forall X, Product_forward Pn X = Product_forward Pf X) /\
    (forall X, Product_backward Pn X = Product_backward Pf X).
Proof.
  intros H1 Hbc.
  pose proof (Product_init_nested ste [FMatrix A; FMatrix B] [FMatrix C] o1 o P1
                H1 eq_refl) as Hn.
  simpl app in Hn.
  apply Product_init_constructed in H1. destruct H1 as [_ Hc _ Hcomp _ _ _ _ _].
  simpl in Hc. rewrite Hc in Hcomp. destruct Hcomp as [Hab _].
  assert (Hflat : exists Pf,
            Product_init ste [FMatrix A; FMatrix B; FMatrix C] o = Ok Pf).
  { unfold Product_init. rewrite addFactors_spec. simpl.
    rewrite check_dims_cons. simpl.
    rewrite Hab, Hbc, !Nat.eqb_refl. simpl. eexists. reflexivity. }
  destruct Hflat as [Pf Hf]. exists Pf, Pf. rewrite Hn.
  repeat split; try assumption.
  apply Product_init_constructed in Hf.
  destruct Hf as [_ Hcf _ _ _ _ _ Hval _]. simpl in Hcf.
  unfold content, sc_ne_1. rewrite Hval, Hcf.
  unfold running_scalar. simpl fold_left. rewrite sc_astype_one. reflexivity.
Qed.

Lemma Product_flatten_nested_witness :
  exists Pn Pf,
    Product_init ex_expansion [FProduct ex_AB; FMatrix ex_C] no_options = Ok Pn /\
    Product_init ex_expansion [FMatrix ex_A; FMatrix ex_B; FMatrix ex_C] no_options
    = Ok Pf /\
    content Pn = [FMatrix ex_A; FMatrix ex_B; FMatrix ex_C] /\
    content Pn = content Pf /\
    _scalar Pn = _scalar Pf /\
    (forall X, Product_forward Pn X = Product_forward Pf X) /\
    (forall X, Product_backward Pn X = Product_backward Pf X).
Proof.
  apply (Product_flatten_nested ex_expansion ex_A ex_B ex_C no_options no_options
           ex_AB).
  - reflexivity.
  - reflexivity.
Defined.

(** The scalars 2 and 3, of whatever element types, give the scalar 6 in
    whatever element type the Product has. *)
Lemma scalar_2_3 (d2 d3 dt : dtype) :
  sc_val (sc_astype
            (sc_inner (sc_inner (NpScalar Dtype.int8 Num.one)
                                (NpScalar d2 (Num.of_Z 2)))
                      (NpScalar d3 (Num.of_Z 3))) dt) = Num.of_Z 6.
Proof. destruct d2, d3, dt; reflexivity. Qed.

(** The order in which the scalars are met shows in the result: the
    product of [np.int8(100)] and [np.int8(2)] wraps around before the
    64-bit scalar 3 is met, and does not when 3 comes first. *)
Example running_scalar_order :
  running_scalar [FScalar (NpScalar Dtype.int8 (Num.of_Z 100));
                  FScalar (NpScalar Dtype.int8 (Num.of_Z 2));
                  FScalar (NpScalar Dtype.int64 (Num.of_Z 3))]
  = NpScalar Dtype.int64 (Num.of_Z (-168)) /\
  running_scalar [FScalar (NpScalar Dtype.int64 (Num.of_Z 3));
                  FScalar (NpScalar Dtype.int8 (Num.of_Z 100));
                  FScalar (NpScalar Dtype.int8 (Num.of_Z 2))]
  = NpScalar Dtype.int64 (Num.of_Z 600).
Proof. split; reflexivity. Qed.

(** C7: [Product(2, A, 3, B)] has the scalar 6 and the factors [(A, B)];
    in general the scalar of a constructed Product is [np.int8(1)]
    multiplied by [np.inner], in the order of the traversal, with every
    scalar met while flattening, and cast to the element type of the
    Product; the factors are the matrices met. *)
Theorem Product_scalar_absorption ste (A B : Matrix) (d2 d3 : dtype) (o : options) :
  numM A = numN B ->
  (exists P,
     Product_init ste [FScalar (NpScalar d2 (Num.of_Z 2)); FMatrix A;
                       FScalar (NpScalar d3 (Num.of_Z 3)); FMatrix B] o = Ok P /\
     sc_val (_scalar P) = Num.of_Z 6 /\
     _content P = [A; B]) /\
  (forall ms o' P,
     Product_init ste ms o' = Ok P ->
     _scalar P
     = sc_astype (fold_left sc_inner (scalars_of (flatten ms))
                            (NpScalar Dtype.int8 Num.one)) (prod_dtype P) /\
     _content P = matrices_of (flatten ms)).
Proof.
  intros Hab. split.
  - unfold Product_init. rewrite addFactors_spec. simpl.
    rewrite check_dims_cons. simpl. rewrite Hab, Nat.eqb_refl. simpl.
    eexists. split; [reflexivity|]. split; [|reflexivity].
    apply scalar_2_3.
  - intros ms o' P H. apply Product_init_constructed in H.
    destruct H as [_ Hc _ _ _ _ _ Hval _]. split; assumption.
Qed.

Lemma Product_scalar_absorption_witness :
  (exists P,
     Product_init ex_expansion
       [FScalar (NpScalar Dtype.int64 (Num.of_Z 2)); FMatrix ex_A;
        FScalar (NpScalar Dtype.int64 (Num.of_Z 3)); FMatrix ex_B] no_options
     = Ok P /\
     sc_val (_scalar P) = Num.of_Z 6 /\
     _content P = [ex_A; ex_B]) /\
  (forall ms o' P,
     Product_init ex_expansion ms o' = Ok P ->
     _scalar P
     = sc_astype (fold_left sc_inner (scalars_of (flatten ms))
                            (NpScalar Dtype.int8 Num.one)) (prod_dtype P) /\
     _content P = matrices_of (flatten ms)).
Proof.
  apply (Product_scalar_absorption ex_expansion ex_A ex_B Dtype.int64 Dtype.int64
           no_options).
  reflexivity.
Defined.

(** C9 as stated fails: the [content] of [Product(2, A, 3, B)] starts with
    the scalar 6. *)
Lemma content_has_scalar_entry :
  ~ (forall ste (ms : list factor) (o : options) (P : Product),
       Product_init ste ms o = Ok P ->
       Forall (fun f => exists A, f = FMatrix A) (content P)).
Proof.
  intros H. specialize (H _ _ _ _ ex_P_init).
  inversion H as [|f l Hhead Htail]; subst.
  destruct Hhead as [A HA]. discriminate HA.
Qed.

(** C9, amended: the [content] of a constructed Product is the flattened
    matrices in their order, none of them a scalar or a Product, preceded
    by the scalar exactly when the scalar is not 1. *)
Theorem Product_content_entries ste (ms : list factor) (o : options) (P : Product) :
  Product_init ste ms o = Ok P ->
  (sc_val (_scalar P) = Num.one ->
   content P = map FMatrix (matrices_of (flatten ms))) /\
  (sc_val (_scalar P) <> Num.one ->
   content P = FScalar (_scalar P) :: map FMatrix (matrices_of (flatten ms))).
Proof.
  intros H. apply Product_init_constructed in H.
  destruct H as [_ Hc _ _ _ _ _ _ _].
  unfold content, sc_ne_1. rewrite Hc.
  destruct (NumFacts.cplx_eqb_spec (sc_val (_scalar P)) Num.one) as [E|E]; simpl;
    split; intros H; try reflexivity; contradiction.
Qed.

Lemma Product_content_entries_witness :
  (sc_val (_scalar ex_P) = Num.one ->
   content ex_P = map FMatrix [ex_A; ex_B]) /\
  (sc_val (_scalar ex_P) <> Num.one ->
   content ex_P = FScalar (_scalar ex_P) :: map FMatrix [ex_A; ex_B]).
Proof.
  apply (Product_content_entries ex_expansion
           [FScalar ex_two; FMatrix ex_A; FScalar ex_three; FMatrix ex_B]
           no_options ex_P).
  reflexivity.
Defined.

Lemma apply_forward_width (l : list Matrix) (X Y : ndarray) :
  Forall (fun A => keeps_width (forward A)) l ->
  apply_forward l X = Ok Y -> Dtype.le (arr_dtype X) (arr_dtype Y).
Proof.
  revert Y. induction l as [|A l IH]; intros Y Hl; simpl.
  - intros H. injection H as <-. apply DtypeFacts.le_refl.
  - inversion Hl as [|? ? HA Hrest]; subst.
    destruct (apply_forward l X) as [Z|e] eqn:E; simpl; [|discriminate].
    intros H. apply (DtypeFacts.le_trans _ (arr_dtype Z)); [apply IH; auto|].
    apply (HA Z Y H).
Qed.

Lemma apply_backward_width (l : list Matrix) (X Y : ndarray) :
  Forall (fun A => keeps_width (backward A)) l ->
  apply_backward l X = Ok Y -> Dtype.le (arr_dtype X) (arr_dtype Y).
Proof.
  revert X. induction l as [|A l IH]; intros X Hl; simpl.
  - intros H. injection H as <-. apply DtypeFacts.le_refl.
  - inversion Hl as [|? ? HA Hrest]; subst.
    destruct (backward A X) as [Z|e] eqn:E; simpl; [|discriminate].
    intros H. apply (DtypeFacts.le_trans _ (arr_dtype Z)); [apply (HA X Z E)|].
    apply IH; assumption.
Qed.

Lemma Dense_keeps_width (A : ndarray) :
  keeps_width (forward (Dense A)) /\ keeps_width (backward (Dense A)).
Proof.
  split; intros Y Z; simpl; unfold dot;
    match goal with |- context [if ?c then _ else _] => destruct c end;
    try discriminate; intros H; injection H as <-; simpl;
    apply DtypeFacts.le_promote_r.
Qed.

(** C10 as stated fails: the element type of the result is the one the
    last transform applied returns.  [Product(N)], for an operator [N]
    whose transforms return 8-bit integers, has the dtype [float32], and
    its [forward] and [backward] return 8-bit integers for an input of
    8-bit integers, narrower than the promotion [float32]. *)
Lemma Product_result_dtype_from_factor :
  ~ (forall ste (ms : list factor) (o : options) (P : Product) (X : ndarray),
       Product_init ste ms o = Ok P ->
       (forall Y, Product_forward P X = Ok Y ->
                  Dtype.le (promote_types (arr_dtype X) (prod_dtype P))
                           (arr_dtype Y)) /\
       (forall Y, Product_backward P X = Ok Y ->
                  Dtype.le (promote_types (arr_dtype X) (prod_dtype P))
                           (arr_dtype Y))).
Proof.
  intros H.
  destruct (H ex_expansion [FMatrix ex_narrow] no_options _ ex_X eq_refl)
    as [Hf _].
  specialize (Hf _ eq_refl). vm_compute in Hf. discriminate Hf.
Qed.

(** C10, amended: for a constructed Product and every input [X], the array
    handed to the first factor has exactly the promotion of the element
    type of [X] with the [dtype] of the Product, in [forward] and in
    [backward], also when the scalar is 1 and the input is only cast; when
    no factor's transform narrows the element type of its input, the
    arrays that [forward(X)] and [backward(X)] return have an element type
    at least as wide as that promotion. *)
Theorem Product_result_dtype ste (ms : list factor) (o : options) (P : Product)
        (X : ndarray) :
  Product_init ste ms o = Ok P ->
  arr_dtype (forward_scale P X) = promote_types (arr_dtype X) (prod_dtype P) /\
  arr_dtype (backward_scale P X) = promote_types (arr_dtype X) (prod_dtype P) /\
  (Forall (fun A => keeps_width (forward A)) (_content P) ->
   forall Y, Product_forward P X = Ok Y ->
             Dtype.le (promote_types (arr_dtype X) (prod_dtype P)) (arr_dtype Y)) /\
  (Forall (fun A => keeps_width (backward A)) (_content P) ->
   forall Y, Product_backward P X = Ok Y ->
             Dtype.le (promote_types (arr_dtype X) (prod_dtype P)) (arr_dtype Y)).
Proof.
  intros H. apply Product_init_constructed in H.
  destruct H as [_ _ _ _ _ _ Hd _ _].
  destruct (forward_scale_spec P X Hd) as (Hfs & _).
  destruct (backward_scale_spec P X Hd) as (Hbs & _).
  split; [exact Hfs|]. split; [exact Hbs|]. split.
  - intros Hf Y HY. rewrite Product_forward_chain in HY.
    rewrite <- Hfs. apply (apply_forward_width _ _ _ Hf HY).
  - intros Hb Y HY. rewrite Product_backward_chain in HY.
    rewrite <- Hbs. apply (apply_backward_width _ _ _ Hb HY).
Qed.

(** [Product(A, B)] has the scalar 1: the example goes through the cast. *)
Lemma Product_result_dtype_witness :
  arr_dtype (forward_scale ex_AB ex_X) = Dtype.float32 /\
  arr_dtype (backward_scale ex_AB ex_X) = Dtype.float32 /\
  (forall Y, Product_forward ex_AB ex_X = Ok Y ->
             Dtype.le Dtype.float32 (arr_dtype Y)) /\
  (forall Y, Product_backward ex_AB ex_X = Ok Y ->
             Dtype.le Dtype.float32 (arr_dtype Y)).
Proof.
  destruct (Product_result_dtype ex_expansion [FMatrix ex_A; FMatrix ex_B]
              no_options ex_AB ex_X eq_refl) as (Hfs & Hbs & Hf & Hb).
  split; [exact Hfs|]. split; [exact Hbs|]. split.
  - apply Hf. constructor; [apply Dense_keeps_width|].
    constructor; [apply Dense_keeps_width|]. constructor.
  - apply Hb. constructor; [apply Dense_keeps_width|].
    constructor; [apply Dense_keeps_width|]. constructor.
Defined.

(** ** The reference paths of Product *)

Lemma cache_loop (refs : list ndarray) (X : ndarray) :
  for_each
    (fun arrRes ii =>
       match refs !! (ii - 1) with
       | Some R => dot R arrRes
       | None => Raise IndexError
       end)
    (rev (seq 1 (length refs))) X
  = apply_references refs X.
Proof.
  unfold apply_references. revert X.
  induction refs as [|R refs IH] using rev_ind; intros X; [reflexivity|].
  rewrite length_app. simpl length. rewrite Nat.add_1_r, seq_S, !rev_app_distr.
  cbn [rev app for_each].
  replace (1 + length refs - 1) with (length refs) by lia.
  rewrite lookup_app_r by lia. rewrite Nat.sub_diag. simpl.
  destruct (dot R X) as [Y|e]; simpl; [|reflexivity].
  rewrite <- IH. apply for_each_ext. intros s i Hi.
  apply in_rev, in_seq in Hi.
  rewrite lookup_app_l by lia. reflexivity.
Qed.

(** The first call of [_forwardReference] stores the references of the
    factors and multiplies the input by them, last factor first; the
    scalar takes no part. *)
Lemma Product_forwardReference_first (P : Product) (X : ndarray) :
  _forwardReferenceMatrix P = None ->
  Product_forwardReference P X
  = (apply_references (map reference (_content P)) X,
     Product_forwardReferenceInit P).
Proof.
  intros H. unfold Product_forwardReference. rewrite H. simpl.
  rewrite <- cache_loop, length_map. reflexivity.
Qed.

(** Later calls find the list, leave the object as it is, and give what a
    first call gives. *)
Lemma Product_forwardReference_again (P : Product) (X X' : ndarray) :
  _forwardReferenceMatrix P = None ->
  Product_forwardReference (snd (Product_forwardReference P X)) X'
  = (fst (Product_forwardReference P X'), snd (Product_forwardReference P X)).
Proof.
  intros H. rewrite (Product_forwardReference_first P X H).
  rewrite (Product_forwardReference_first P X' H). simpl.
  unfold Product_forwardReference. simpl.
  rewrite <- cache_loop, length_map. reflexivity.
Qed.

Lemma ex_2I_init :
  Product_init ex_expansion [FScalar ex_two; FMatrix ex_I] no_options = Ok ex_2I.
Proof. reflexivity. Qed.

(** C4: on [Product(2, I)] and the input [[1]], [_forwardReference] returns
    [[1]], while [forward] and the product of [_reference()] with the input
    return [[2]]: the cached path leaves the scalar out. *)
Theorem Product_forwardReference_drops_scalar :
  fst (Product_forwardReference ex_2I (arr_of Dtype.int8 [[1]]%Z))
  = Ok (arr_of Dtype.int8 [[1]]%Z) /\
  (let! R := Product_reference ex_2I in dot R (arr_of Dtype.int8 [[1]]%Z))
  = Ok (arr_of Dtype.float64 [[2]]%Z) /\
  Product_forward ex_2I (arr_of Dtype.int8 [[1]]%Z)
  = Ok (arr_of Dtype.float64 [[2]]%Z).
Proof. repeat split. Qed.

(** ** The reference of DiagBlocks *)

(** A loop over [range(a, a + k)] whose invariant follows the index. *)
Lemma for_each_seq_invariant {St : Type} (Inv : nat -> St -> Prop)
      (body : St -> nat -> result St) (k a : nat) (s : St) :
  Inv a s ->
  (forall i s, a <= i < a + k -> Inv i s ->
               exists s', body s i = Ok s' /\ Inv (S i) s') ->
  exists s', for_each body (seq a k) s = Ok s' /\ Inv (a + k) s'.
Proof.
  revert a s. induction k as [|k IH]; intros a s Hs Hstep; simpl.
  - exists s. rewrite Nat.add_0_r. auto.
  - destruct (Hstep a s) as (s1 & E & H1); [lia | exact Hs |].
    rewrite E. simpl. replace (a + S k) with (S a + k) by lia.
    apply IH; [exact H1|]. intros i s2 Hi. apply Hstep. lia.
Qed.

Lemma block_index (Z i nn : nat) :
  0 < Z -> (nn * Z <= i /\ i < (nn + 1) * Z) <-> i / Z = nn.
Proof.
  intros HZ. pose proof (Nat.div_mod_eq i Z) as E.
  pose proof (Nat.mod_upper_bound i Z ltac:(lia)) as Hr.
  split; intros H; nia.
Qed.

Lemma block_offset (Z i : nat) : 0 < Z -> i - (i / Z) * Z = i mod Z.
Proof.
  intros HZ. pose proof (Nat.div_mod_eq i Z) as E. nia.
Qed.

Lemma block_div (Z n i : nat) : i < Z -> (n * Z + i) / Z = n.
Proof.
  intros H. rewrite Nat.div_add_l by lia. rewrite Nat.div_small by lia. lia.
Qed.

Lemma block_mod (Z n i : nat) : i < Z -> (n * Z + i) mod Z = i.
Proof.
  intros H. rewrite Nat.add_comm, Nat.Div0.mod_add. apply Nat.mod_small. exact H.
Qed.

Lemma length_tabulate {A : Type} (n : nat) (f : nat -> A) :
  length (tabulate n f) = n.
Proof. unfold tabulate. rewrite length_map, length_seq. reflexivity. Qed.

Lemma length_ten_row (T : tensor3) (a b : nat) :
  length (ten_row T a b) = ten_d2 T.
Proof. apply length_tabulate. Qed.

Lemma np_diag_rows dt v : arr_rows (np_diag dt v) = length v.
Proof. reflexivity. Qed.

Lemma np_diag_cols dt v : arr_cols (np_diag dt v) = length v.
Proof. reflexivity. Qed.

Lemma get_np_diag dt v i j :
  i < length v -> j < length v ->
  get (np_diag dt v) i j = if i =? j then nth i v Num.zero else Num.zero.
Proof. intros Hi Hj. unfold np_diag. apply get_mk2; assumption. Qed.

Section DiagBlocksReference.

Variable T : tensor3.
Let N := ten_d0 T.
Let M := ten_d1 T.
Let Z := ten_d2 T.

Lemma reference_inner_step (nn mm : nat) (arr : ndarray) :
  nn < N -> mm < M -> reference_at T nn mm arr ->
  exists arr',
    assign_block arr (nn * Z) ((nn + 1) * Z) (mm * Z) ((mm + 1) * Z)
                 (np_diag (ten_dtype T) (ten_row T nn mm)) = Ok arr' /\
    reference_at T nn (S mm) arr'.
Proof.
  intros Hn Hm ->. unfold assign_block.
  rewrite np_diag_rows, np_diag_cols, length_ten_row.
  cbn [arr_rows arr_cols arr_dtype mk2]. fold Z N M.
  replace (Nat.min ((nn + 1) * Z) (N * Z)) with ((nn + 1) * Z) by nia.
  replace (Nat.min ((mm + 1) * Z) (M * Z)) with ((mm + 1) * Z) by nia.
  replace ((nn + 1) * Z - nn * Z) with Z by nia.
  replace ((mm + 1) * Z - mm * Z) with Z by nia.
  rewrite !Nat.eqb_refl. simpl andb. cbv iota.
  eexists. split; [reflexivity|]. unfold reference_at. fold Z N M.
  apply mk2_ext. intros i j Hi Hj.
  assert (HZ : 0 < Z) by nia.
  fold (mk2 (ten_dtype T) (N * Z) (M * Z)
            (fun i j => if block_done nn mm (i / Z) (j / Z)
                        then block_entry T i j else Num.zero)).
  rewrite (get_mk2 _ _ _ _ i j Hi Hj).
  pose proof (block_index Z i nn HZ) as Bi.
  pose proof (block_index Z j mm HZ) as Bj.
  unfold block_done.
  destruct (Nat.leb_spec (nn * Z) i), (Nat.ltb_spec i ((nn + 1) * Z)),
           (Nat.leb_spec (mm * Z) j), (Nat.ltb_spec j ((mm + 1) * Z));
    cbn [andb];
    destruct (Nat.ltb_spec (i / Z) nn), (Nat.eqb_spec (i / Z) nn),
             (Nat.ltb_spec (j / Z) mm), (Nat.ltb_spec (j / Z) (S mm));
    cbn [andb orb]; try reflexivity; try lia.
  assert (Ei : i / Z = nn) by (apply Bi; lia).
  assert (Ej : j / Z = mm) by (apply Bj; lia).
  pose proof (block_offset Z i HZ) as Oi. pose proof (block_offset Z j HZ) as Oj.
  rewrite Ei in Oi. rewrite Ej in Oj.
  pose proof (Nat.mod_upper_bound i Z ltac:(lia)) as Ui.
  pose proof (Nat.mod_upper_bound j Z ltac:(lia)) as Uj.
  rewrite Oi, Oj.
  rewrite get_np_diag by (rewrite length_ten_row; fold Z; lia).
  unfold block_entry. fold Z. rewrite Ei, Ej.
  destruct (i mod Z =? j mod Z); [|reflexivity].
  apply nth_tabulate. exact Ui.
Qed.

End DiagBlocksReference.

Lemma reference_row_done (T : tensor3) (nn : nat) (arr : ndarray) :
  reference_at T nn (ten_d1 T) arr -> reference_at T (S nn) 0 arr.
Proof.
  intros ->. unfold reference_at. apply mk2_ext. intros i j Hi Hj.
  assert (HZ : 0 < ten_d2 T) by nia.
  assert (Hb : j / ten_d2 T < ten_d1 T).
  { apply Nat.Div0.div_lt_upper_bound. lia. }
  unfold block_done.
  destruct (Nat.ltb_spec (i / ten_d2 T) nn), (Nat.eqb_spec (i / ten_d2 T) nn),
           (Nat.ltb_spec (j / ten_d2 T) (ten_d1 T)),
           (Nat.ltb_spec (i / ten_d2 T) (S nn)),
           (Nat.eqb_spec (i / ten_d2 T) (S nn)),
           (Nat.ltb_spec (j / ten_d2 T) 0);
    cbn [andb orb]; try reflexivity; lia.
Qed.

Lemma DiagBlocks_reference_loops (T : tensor3) :
  exists R,
    DiagBlocks_reference (DiagBlocks_init T) = Ok R /\
    reference_at T (ten_d0 T) 0 R.
Proof.
  unfold DiagBlocks_reference, DiagBlocks_init.
  cbn [_numDiagsN _numDiagsM _numDiagsSize _tenDiags db_numN db_numM db_dtype].
  apply (for_each_seq_invariant (fun nn arr => reference_at T nn 0 arr)
           _ (ten_d0 T) 0).
  - unfold reference_at, np_zeros. apply mk2_ext. intros i j _ _.
    unfold block_done.
    destruct (Nat.ltb_spec (i / ten_d2 T) 0), (Nat.ltb_spec (j / ten_d2 T) 0),
             (i / ten_d2 T =? 0); cbn [andb orb]; try reflexivity; lia.
  - intros nn arr Hnn Harr.
    destruct (for_each_seq_invariant (fun mm arr => reference_at T nn mm arr)
                (fun arrRes mm =>
                   assign_block arrRes (nn * ten_d2 T) ((nn + 1) * ten_d2 T)
                     (mm * ten_d2 T) ((mm + 1) * ten_d2 T)
                     (np_diag (ten_dtype T) (ten_row T nn mm)))
                (ten_d1 T) 0 arr Harr) as (arr' & E & H').
    + intros mm s Hmm Hs. apply reference_inner_step; [lia | lia | exact Hs].
    + exists arr'. split; [exact E|]. apply reference_row_done. exact H'.
Qed.

(** C8: for every tensor of shape [(N, M, Z)], [reference()] of the
    DiagBlocks built from it is a matrix of [N * Z] rows and [M * Z]
    columns whose block at row offset [n * Z] and column offset [m * Z] is
    [diag(T[n, m, :])]: the entry at [(n * Z + i, m * Z + j)] is
    [T[n, m, i]] when [i = j] and zero otherwise. *)
Theorem DiagBlocks_reference_spec (T : tensor3) :
  exists R,
    DiagBlocks_reference (DiagBlocks_init T) = Ok R /\
    arr_rows R = db_numN (DiagBlocks_init T) /\
    arr_cols R = db_numM (DiagBlocks_init T) /\
    db_numN (DiagBlocks_init T) = ten_d0 T * ten_d2 T /\
    db_numM (DiagBlocks_init T) = ten_d1 T * ten_d2 T /\
    forall n m i j,
      n < ten_d0 T -> m < ten_d1 T -> i < ten_d2 T -> j < ten_d2 T ->
      get R (n * ten_d2 T + i) (m * ten_d2 T + j)
      = if i =? j then get3 T n m i else Num.zero.
Proof.
  destruct (DiagBlocks_reference_loops T) as (R & E & HR).
  unfold reference_at in HR. subst R.
  eexists. split; [exact E|].
  repeat split. intros n m i j Hn Hm Hi Hj.
  rewrite get_mk2 by nia.
  unfold block_done, block_entry.
  rewrite !block_div, !block_mod by assumption.
  destruct (Nat.ltb_spec n (ten_d0 T)); [reflexivity | lia].
Qed.

Lemma DiagBlocks_reference_spec_witness :
  exists R,
    DiagBlocks_reference (DiagBlocks_init ex_T322) = Ok R /\
    arr_rows R = 6 /\ arr_cols R = 4 /\
    get R (2 * 2 + 1) (1 * 2 + 1) = Num.of_Z 12 /\
    get R (2 * 2 + 1) (1 * 2 + 0) = Num.zero.
Proof.
  destruct (DiagBlocks_reference_spec ex_T322) as (R & E & Hr & Hc & _ & _ & H).
  exists R. split; [exact E|]. split; [exact Hr|]. split; [exact Hc|].
  split.
  - apply (H 2 1 1 1); simpl; lia.
  - apply (H 2 1 1 0); simpl; lia.
Defined.

(** ** The transforms of DiagBlocks *)

Lemma label_size_mismatch (a b : nat) :
  a <> b -> a <> 1 -> b <> 1 -> label_size a b = Raise ValueError_Shape.
Proof.
  intros Hab Ha Hb. unfold label_size.
  destruct (Nat.eqb_spec a b); [contradiction|].
  destruct (Nat.eqb_spec a 1); [contradiction|].
  destruct (Nat.eqb_spec b 1); [contradiction|]. reflexivity.
Qed.

(** [_backwardC] reshapes its input, which has [numN] rows, by the number
    of block columns: on a grid that is not square, with more than one
    block in each direction, [einsum] then finds two sizes for the label
    [m], and [backward] raises on every input. *)
Lemma DiagBlocks_backward_nonsquare (T : tensor3) (arrX : ndarray) :
  ten_d0 T <> ten_d1 T -> ten_d0 T <> 1 -> ten_d1 T <> 1 ->
  DiagBlocks_backward (DiagBlocks_init T) arrX = Raise ValueError_Shape.
Proof.
  intros Hnm Hn Hm. unfold DiagBlocks_backward.
  destruct (negb _); [reflexivity|].
  unfold DiagBlocks_backwardC, reshapeF_3.
  cbn [DiagBlocks_init _numDiagsM _tenDiags].
  destruct (_ || _); [reflexivity|]. cbn [rbind].
  unfold einsum_mnz_zmk. cbn [ten_conj mk3 ten_d0 ten_d1].
  rewrite label_size_mismatch by assumption. reflexivity.
Qed.

(** C3: on the DiagBlocks of a tensor of shape [(3, 2, 2)], [forward]
    returns a result and [backward] raises on an input of [numN = 6] rows,
    so that the two sides of the inner-product identity cannot be
    compared. *)
Theorem DiagBlocks_backward_nonsquare_raises :
  DiagBlocks_forward (DiagBlocks_init ex_T322)
                     (arr_of Dtype.int8 [[1]; [0]; [0]; [1]]%Z)
  = Ok (arr_of Dtype.int8 [[1]; [4]; [5]; [8]; [9]; [12]]%Z) /\
  DiagBlocks_backward (DiagBlocks_init ex_T322)
                      (arr_of Dtype.int8 [[1]; [0]; [0]; [1]; [0]; [0]]%Z)
  = Raise ValueError_Shape.
Proof. split; reflexivity. Qed.

(** On a grid of one block row the sizes are broadcast instead, and
    [backward] returns a value that is not the adjoint: for the tensor of
    shape [(1, 2, 2)] with all entries 1, [x = e_1] and [y = e_0],
    [<forward(x), y>] is 0 and [<x, backward(y)>] is 1. *)
Lemma DiagBlocks_backward_one_row_not_adjoint :
  exists Fx By,
    DiagBlocks_forward (DiagBlocks_init ex_T122)
                       (arr_of Dtype.int8 [[0]; [1]; [0]; [0]]%Z) = Ok Fx /\
    DiagBlocks_backward (DiagBlocks_init ex_T122)
                        (arr_of Dtype.int8 [[1]; [0]]%Z) = Ok By /\
    inner_col Fx (arr_of Dtype.int8 [[1]; [0]]%Z) 0 = Num.zero /\
    inner_col (arr_of Dtype.int8 [[0]; [1]; [0]; [0]]%Z) By 0 = Num.one.
Proof. do 2 eexists. repeat split. Qed.

(** *** The two reshapes *)

Lemma bidx_lt (d i : nat) : i < d -> bidx d i = i.
Proof.
  intros H. unfold bidx. destruct (Nat.eqb_spec d 1); [lia | reflexivity].
Qed.

Lemma label_size_same (a : nat) : label_size a a = Ok a.
Proof. unfold label_size. rewrite Nat.eqb_refl. reflexivity. Qed.

(** An array of [M * Z] rows and [K] columns is reshaped to the shape
    [(Z, M, K)], with the entry [(b * Z + a, c)] at [(a, b, c)]. *)
Lemma reshapeF_3_blocks (X : ndarray) (Z M K : nat) :
  arr_rows X = M * Z -> arr_cols X = K -> 0 < M -> 0 < K ->
  exists X3,
    reshapeF_3 X M K = Ok X3 /\
    ten_dtype X3 = arr_dtype X /\
    ten_d0 X3 = Z /\ ten_d1 X3 = M /\ ten_d2 X3 = K /\
    forall a b c, a < Z -> b < M -> c < K ->
                  get3 X3 a b c = get X (b * Z + a) c.
Proof.
  intros Hr Hc HM HK. unfold reshapeF_3. rewrite Hr, Hc.
  assert (Hmk : M * K <> 0) by nia.
  replace (M * Z * K) with (Z * (M * K)) by nia.
  rewrite Nat.Div0.mod_mul, Nat.div_mul by exact Hmk.
  destruct (Nat.eqb_spec (M * K) 0) as [E0|E0]; [contradiction|]. simpl.
  eexists. split; [reflexivity|]. simpl. repeat split.
  intros a b c Ha Hb Hcc. rewrite get3_mk3 by assumption.
  unfold flatF2. rewrite Hr.
  assert (Hlt : b * Z + a < M * Z) by nia.
  assert (E : a + Z * (b + M * c) = M * Z * c + (b * Z + a)) by nia.
  rewrite <- (Nat.mod_unique _ (M * Z) c (b * Z + a) Hlt E).
  rewrite <- (Nat.div_unique _ (M * Z) c (b * Z + a) Hlt E).
  reflexivity.
Qed.

(** A tensor of shape [(Z, N, K)] is reshaped to [N * Z] rows and [K]
    columns, with the entry [(z, n, k)] at [(n * Z + z, k)]. *)
Lemma reshapeF_2_blocks (E : tensor3) (Z N K : nat) :
  ten_d0 E = Z -> ten_d1 E = N -> ten_d2 E = K -> 0 < K ->
  exists V,
    reshapeF_2 E K = Ok V /\
    arr_dtype V = ten_dtype E /\
    arr_rows V = N * Z /\ arr_cols V = K /\
    forall n z k, n < N -> z < Z -> k < K ->
                  get V (n * Z + z) k = get3 E z n k.
Proof.
  intros H0 H1 H2 HK. unfold reshapeF_2. rewrite H0, H1, H2.
  rewrite Nat.Div0.mod_mul, Nat.div_mul by lia.
  destruct (Nat.eqb_spec K 0) as [E0|E0]; [lia|]. simpl.
  eexists. split; [reflexivity|]. simpl. repeat split; [lia|].
  intros n z k Hn Hz Hk. rewrite get_mk2 by nia.
  unfold flatF3. rewrite H0, H1.
  set (f := n * Z + z + Z * N * k).
  assert (Ez : f = Z * (n + N * k) + z) by (unfold f; nia).
  rewrite <- (Nat.mod_unique f Z (n + N * k) z Hz Ez).
  rewrite <- (Nat.div_unique f Z (n + N * k) z Hz Ez).
  assert (En : n + N * k = N * k + n) by lia.
  rewrite <- (Nat.mod_unique (n + N * k) N k n Hn En).
  assert (Hlt : n * Z + z < Z * N) by nia.
  assert (Ek : f = Z * N * k + (n * Z + z)) by (unfold f; nia).
  rewrite <- (Nat.div_unique f (Z * N) k (n * Z + z) Hlt Ek).
  reflexivity.
Qed.

(** *** The transforms, entry by entry *)

Lemma store_blocks (E : tensor3) (Z N K : nat) (dt : dtype) :
  ten_d0 E = Z -> ten_d1 E = N -> ten_d2 E = K -> 0 < K ->
  exists Y,
    (let! V := reshapeF_2 E K in assign_all (np_zeros (N * Z) K dt) V) = Ok Y /\
    arr_dtype Y = dt /\ arr_rows Y = N * Z /\ arr_cols Y = K /\
    forall n z k, n < N -> z < Z -> k < K ->
                  get Y (n * Z + z) k = get3 E z n k.
Proof.
  intros H0 H1 H2 HK.
  destruct (reshapeF_2_blocks E Z N K H0 H1 H2 HK) as (V & EV & _ & Hr & Hc & Hget).
  rewrite EV. cbn [rbind]. unfold assign_all.
  rewrite Hr, Hc. cbn [np_zeros mk2 arr_rows arr_cols arr_dtype].
  rewrite !Nat.eqb_refl. cbn [orb andb].
  eexists. split; [reflexivity|]. simpl. repeat split.
  intros n z k Hn Hz Hk. rewrite get_mk2 by nia.
  rewrite !bidx_lt by nia. apply Hget; assumption.
Qed.

Lemma get3_ten_conj (T : tensor3) (a b c : nat) :
  a < ten_d0 T -> b < ten_d1 T -> c < ten_d2 T ->
  get3 (ten_conj T) a b c = Num.conj (get3 T a b c).
Proof. intros Ha Hb Hc. unfold ten_conj. apply get3_mk3; assumption. Qed.

(** [forward]: block row [n] of the result is the sum over [m] of
    [diag(T[n, m, :])] times block [m] of the input. *)
Lemma DiagBlocks_forward_entries (T : tensor3) (X : ndarray) :
  arr_rows X = ten_d1 T * ten_d2 T -> 0 < ten_d1 T -> 0 < arr_cols X ->
  exists Y,
    DiagBlocks_forward (DiagBlocks_init T) X = Ok Y /\
    arr_rows Y = ten_d0 T * ten_d2 T /\ arr_cols Y = arr_cols X /\
    forall n z k, n < ten_d0 T -> z < ten_d2 T -> k < arr_cols X ->
      get Y (n * ten_d2 T + z) k
      = Num.sum (ten_d1 T)
          (fun m => Num.mul (get3 T n m z) (get X (m * ten_d2 T + z) k)).
Proof.
  intros Hr HM HK. unfold DiagBlocks_forward, DiagBlocks_forwardC, DiagBlocks_init.
  cbn [_numDiagsM _tenDiags db_numN db_numM db_dtype].
  rewrite Hr, Nat.eqb_refl. cbn [negb].
  destruct (reshapeF_3_blocks X (ten_d2 T) (ten_d1 T) (arr_cols X) Hr eq_refl HM HK)
    as (X3 & E3 & _ & D0 & D1 & D2 & Hget3).
  rewrite E3. cbn [rbind]. unfold einsum_nmz_zmk.
  rewrite D0, D1, D2, !label_size_same. cbn [rbind].
  match goal with
  | |- context [reshapeF_2 ?E _] =>
      destruct (store_blocks E (ten_d2 T) (ten_d0 T) (arr_cols X)
                  (promote_types (ten_dtype T) (arr_dtype X))
                  eq_refl eq_refl eq_refl HK) as (Y & EY & _ & HrY & HcY & HgY)
  end.
  exists Y. split; [exact EY|]. split; [exact HrY|]. split; [exact HcY|].
  intros n z k Hn Hz Hk. rewrite HgY by assumption.
  rewrite get3_mk3 by assumption. apply sum_ext. intros m Hm.
  rewrite !bidx_lt by assumption. rewrite Hget3 by assumption. reflexivity.
Qed.

(** [backward] on a square grid: block [m] of the result is the sum over
    [n] of the conjugate of [diag(T[n, m, :])] times block [n] of the
    input. *)
Lemma DiagBlocks_backward_entries (T : tensor3) (X : ndarray) :
  ten_d0 T = ten_d1 T ->
  arr_rows X = ten_d0 T * ten_d2 T -> 0 < ten_d0 T -> 0 < arr_cols X ->
  exists Y,
    DiagBlocks_backward (DiagBlocks_init T) X = Ok Y /\
    arr_rows Y = ten_d1 T * ten_d2 T /\ arr_cols Y = arr_cols X /\
    forall m z k, m < ten_d1 T -> z < ten_d2 T -> k < arr_cols X ->
      get Y (m * ten_d2 T + z) k
      = Num.sum (ten_d0 T)
          (fun n => Num.mul (Num.conj (get3 T n m z))
                            (get X (n * ten_d2 T + z) k)).
Proof.
  intros Hsq Hr HN HK.
  unfold DiagBlocks_backward, DiagBlocks_backwardC, DiagBlocks_init.
  cbn [_numDiagsM _tenDiags db_numN db_numM db_dtype].
  rewrite Hr, Nat.eqb_refl. cbn [negb].
  assert (Hr' : arr_rows X = ten_d1 T * ten_d2 T) by congruence.
  assert (HM : 0 < ten_d1 T) by congruence.
  destruct (reshapeF_3_blocks X (ten_d2 T) (ten_d1 T) (arr_cols X) Hr' eq_refl HM HK)
    as (X3 & E3 & _ & D0 & D1 & D2 & Hget3).
  rewrite E3. cbn [rbind]. unfold einsum_mnz_zmk.
  change (ten_d0 (ten_conj T)) with (ten_d0 T).
  change (ten_d1 (ten_conj T)) with (ten_d1 T).
  change (ten_d2 (ten_conj T)) with (ten_d2 T).
  change (ten_dtype (ten_conj T)) with (ten_dtype T).
  rewrite D0, D1, D2, Hsq, !label_size_same. cbn [rbind].
  match goal with
  | |- context [reshapeF_2 ?E _] =>
      destruct (store_blocks E (ten_d2 T) (ten_d1 T) (arr_cols X)
                  (promote_types (ten_dtype T) (arr_dtype X))
                  eq_refl eq_refl eq_refl HK) as (Y & EY & _ & HrY & HcY & HgY)
  end.
  exists Y. split; [exact EY|]. split; [exact HrY|]. split; [exact HcY|].
  intros m z k Hm Hz Hk. rewrite HgY by assumption.
  rewrite get3_mk3 by assumption. apply sum_ext. intros n Hn.
  rewrite !bidx_lt by lia. rewrite Hget3 by lia.
  rewrite get3_ten_conj by lia. reflexivity.
Qed.

(** *** Sums *)

Lemma sum_S n f : Num.sum (S n) f = Num.add (Num.sum n f) (f n).
Proof.
  unfold Num.sum. rewrite seq_S, fold_left_app. reflexivity.
Qed.

Lemma sum_zero n : Num.sum n (fun _ => Num.zero) = Num.zero.
Proof.
  induction n as [|n IH]; [reflexivity|]. rewrite sum_S, IH. reflexivity.
Qed.

Lemma sum_add n f g :
  Num.sum n (fun i => Num.add (f i) (g i)) = Num.add (Num.sum n f) (Num.sum n g).
Proof.
  induction n as [|n IH]; [reflexivity|]. rewrite !sum_S, IH.
  rewrite <- !NumFacts.add_assoc. f_equal.
  rewrite !NumFacts.add_assoc. f_equal. apply NumFacts.add_comm.
Qed.

Lemma sum_mul_l n c f :
  Num.mul c (Num.sum n f) = Num.sum n (fun i => Num.mul c (f i)).
Proof.
  induction n as [|n IH]; [apply NumFacts.mul_0_r|].
  rewrite !sum_S, NumFacts.mul_add_distr_l, IH. reflexivity.
Qed.

Lemma sum_mul_r n c f :
  Num.mul (Num.sum n f) c = Num.sum n (fun i => Num.mul (f i) c).
Proof.
  induction n as [|n IH]; [apply NumFacts.mul_0_l|].
  rewrite !sum_S, NumFacts.mul_add_distr_r, IH. reflexivity.
Qed.

Lemma sum_conj n f :
  Num.conj (Num.sum n f) = Num.sum n (fun i => Num.conj (f i)).
Proof.
  induction n as [|n IH]; [reflexivity|].
  rewrite !sum_S, NumFacts.conj_add, IH. reflexivity.
Qed.

Lemma sum_swap n m (f : nat -> nat -> cplx) :
  Num.sum n (fun i => Num.sum m (fun j => f i j))
  = Num.sum m (fun j => Num.sum n (fun i => f i j)).
Proof.
  induction n as [|n IH].
  - simpl. symmetry. apply sum_zero.
  - rewrite sum_S, IH, <- sum_add. apply sum_ext. intros j _.
    rewrite sum_S. reflexivity.
Qed.

Lemma sum_plus a b f :
  Num.sum (a + b) f = Num.add (Num.sum a f) (Num.sum b (fun i => f (a + i))).
Proof.
  induction b as [|b IH].
  - rewrite Nat.add_0_r. simpl. rewrite NumFacts.add_0_r. reflexivity.
  - rewrite Nat.add_succ_r, !sum_S, IH, NumFacts.add_assoc. reflexivity.
Qed.

(** A sum over [N * Z] indices, block by block. *)
Lemma sum_blocks N Z f :
  Num.sum (N * Z) f = Num.sum N (fun n => Num.sum Z (fun z => f (n * Z + z))).
Proof.
  induction N as [|N IH]; [reflexivity|].
  rewrite sum_S, <- IH. replace (S N * Z) with (N * Z + Z) by lia.
  apply sum_plus.
Qed.

(** For a square grid of blocks the two transforms are adjoint:
    [<forward(x), y> = <x, backward(y)>], column by column, for the exact
    sums of products. *)
Theorem DiagBlocks_adjoint_square (T : tensor3) (x y : ndarray) :
  ten_d0 T = ten_d1 T -> 0 < ten_d0 T ->
  arr_rows x = ten_d1 T * ten_d2 T ->
  arr_rows y = ten_d0 T * ten_d2 T ->
  arr_cols x = arr_cols y -> 0 < arr_cols x ->
  exists Fx By,
    DiagBlocks_forward (DiagBlocks_init T) x = Ok Fx /\
    DiagBlocks_backward (DiagBlocks_init T) y = Ok By /\
    forall k, k < arr_cols x -> inner_col Fx y k = inner_col x By k.
Proof.
  intros Hsq HN Hx Hy Hk HK.
  destruct (DiagBlocks_forward_entries T x Hx ltac:(lia) HK)
    as (Fx & EF & HrF & _ & HgF).
  destruct (DiagBlocks_backward_entries T y Hsq Hy HN ltac:(lia))
    as (By & EB & HrB & _ & HgB).
  exists Fx, By. split; [exact EF|]. split; [exact EB|].
  intros k Hlt. unfold inner_col. rewrite HrF, Hx, !sum_blocks.
  set (F := fun n m z =>
              Num.mul (Num.mul (Num.conj (get3 T n m z))
                               (Num.conj (get x (m * ten_d2 T + z) k)))
                      (get y (n * ten_d2 T + z) k)).
  transitivity (Num.sum (ten_d0 T) (fun n =>
                  Num.sum (ten_d2 T) (fun z =>
                    Num.sum (ten_d1 T) (fun m => F n m z)))).
  { apply sum_ext. intros n Hn. apply sum_ext. intros z Hz.
    rewrite HgF by assumption. rewrite sum_conj, sum_mul_r.
    apply sum_ext. intros m Hm. unfold F. rewrite NumFacts.conj_mul. reflexivity. }
  transitivity (Num.sum (ten_d1 T) (fun m =>
                  Num.sum (ten_d2 T) (fun z =>
                    Num.sum (ten_d0 T) (fun n => F n m z)))).
  { transitivity (Num.sum (ten_d0 T) (fun n =>
                    Num.sum (ten_d1 T) (fun m =>
                      Num.sum (ten_d2 T) (fun z => F n m z)))).
    { apply sum_ext. intros n _. apply sum_swap. }
    rewrite sum_swap. apply sum_ext. intros m _. apply sum_swap. }
  apply sum_ext. intros m Hm. apply sum_ext. intros z Hz.
  rewrite HgB by (assumption || lia). rewrite sum_mul_l.
  apply sum_ext. intros n Hn. unfold F.
  rewrite NumFacts.mul_assoc. f_equal. apply NumFacts.mul_comm.
Qed.

(** The identity on a grid of 2x2 blocks with complex entries. *)
Lemma DiagBlocks_adjoint_square_example :
  exists Fx By,
    DiagBlocks_forward (DiagBlocks_init ex_T222)
                       (arr_of Dtype.int8 [[1]; [2]; [3]; [4]]%Z) = Ok Fx /\
    DiagBlocks_backward (DiagBlocks_init ex_T222)
                        (arr_of Dtype.int8 [[4]; [3]; [2]; [1]]%Z) = Ok By /\
    forall k, k < 1 ->
      inner_col Fx (arr_of Dtype.int8 [[4]; [3]; [2]; [1]]%Z) k
      = inner_col (arr_of Dtype.int8 [[1]; [2]; [3]; [4]]%Z) By k.
Proof.
  apply (DiagBlocks_adjoint_square ex_T222
           (arr_of Dtype.int8 [[1]; [2]; [3]; [4]]%Z)
           (arr_of Dtype.int8 [[4]; [3]; [2]; [1]]%Z));
    simpl; try reflexivity; lia.
Qed.

(** * Further properties *)

(** ** The construction of a Product *)

Lemma absorb_datatype (l : list factor) (st : build) :
  b_datatype (fold_left absorb l st) =
  fold_left Dtype.promote_types (dtypes_of l) (b_datatype st).
Proof.
  revert st. induction l as [|f l IH]; intros st; simpl; [reflexivity|].
  rewrite IH. destruct f; reflexivity.
Qed.

Lemma le_fold_promote_init (l : list dtype) (d : dtype) :
  Dtype.le d (fold_left Dtype.promote_types l d).
Proof.
  revert d. induction l as [|x l IH]; intros d; simpl.
  - apply DtypeFacts.le_refl.
  - apply (DtypeFacts.le_trans _ (promote_types d x));
      [apply DtypeFacts.le_promote_l | apply IH].
Qed.

Lemma le_fold_promote_in (l : list dtype) (d x : dtype) :
  In x l -> Dtype.le x (fold_left Dtype.promote_types l d).
Proof.
  revert d. induction l as [|y l IH]; intros d Hx; [destruct Hx|].
  simpl. destruct Hx as [->|Hx].
  - apply (DtypeFacts.le_trans _ (promote_types d x));
      [apply DtypeFacts.le_promote_r | apply le_fold_promote_init].
  - apply IH. exact Hx.
Qed.

Lemma fold_promote_lub (l : list dtype) (d t : dtype) :
  Dtype.le d t -> (forall x, In x l -> Dtype.le x t) ->
  Dtype.le (fold_left Dtype.promote_types l d) t.
Proof.
  revert d. induction l as [|y l IH]; intros d Hd Hl; simpl; [exact Hd|].
  apply IH.
  - apply DtypeFacts.promote_lub; [exact Hd | apply Hl; left; reflexivity].
  - intros x Hx. apply Hl. right. exact Hx.
Qed.

Lemma in_dtypes_of_matrix (fs : list factor) (A : Matrix) :
  In A (matrices_of fs) -> In (mat_dtype A) (dtypes_of fs).
Proof.
  unfold matrices_of, dtypes_of. rewrite !in_flat_map.
  intros (f & Hf & HA). exists f. split; [exact Hf|].
  destruct f; simpl in *; try contradiction.
  destruct HA as [->|[]]. left. reflexivity.
Qed.

Lemma in_dtypes_of_scalar (fs : list factor) (s : npscalar) :
  In s (scalars_of fs) -> In (sc_dtype s) (dtypes_of fs).
Proof.
  unfold scalars_of, dtypes_of. rewrite !in_flat_map.
  intros (f & Hf & Hs). exists f. split; [exact Hf|].
  destruct f; simpl in *; try contradiction.
  destruct Hs as [->|[]]. left. reflexivity.
Qed.

Lemma in_dtypes_of_inv (fs : list factor) (x : dtype) :
  In x (dtypes_of fs) ->
  (exists A, In A (matrices_of fs) /\ mat_dtype A = x) \/
  (exists s, In s (scalars_of fs) /\ sc_dtype s = x).
Proof.
  unfold matrices_of, scalars_of, dtypes_of. rewrite in_flat_map.
  intros (f & Hf & Hx). destruct f as [s|A|P|]; simpl in Hx; try contradiction;
    destruct Hx as [<-|[]].
  - right. exists s. split; [|reflexivity]. apply in_flat_map.
    exists (FScalar s). split; [exact Hf | left; reflexivity].
  - left. exists A. split; [|reflexivity]. apply in_flat_map.
    exists (FMatrix A). split; [exact Hf | left; reflexivity].
Qed.

Lemma compatible_fits (l : list Matrix) : compatible l <-> fits l.
Proof.
  unfold fits. induction l as [|A l IH]; simpl.
  - split; [intros _ i A B H; discriminate | auto].
  - destruct l as [|B l].
    + split; [intros _ i A' B' H1 H2; destruct i; discriminate | auto].
    + split.
      * intros [E Hc] i A' B' H1 H2. destruct i as [|i].
        -- simpl in H1, H2. congruence.
        -- apply (proj1 IH Hc i A' B'); assumption.
      * intros H. split; [apply (H 0); reflexivity|].
        apply IH. intros i A' B' H1 H2. apply (H (S i)); assumption.
Qed.

Lemma dims_from_cases (rest : list Matrix) (ii n0 m : nat) :
  (exists m', dims_from ii n0 m rest = Ok m') \/
  (exists j a, dims_from ii n0 m rest = Raise (ValueError_Dimensions j n0 a)).
Proof.
  revert ii m. induction rest as [|B rest IH]; intros ii m; simpl.
  - left. eexists. reflexivity.
  - destruct (negb (numN B =? m)); [right; do 2 eexists; reflexivity | apply IH].
Qed.

Lemma Product_init_unfold ste (ms : list factor) (o : options) :
  existsb is_other ms = false ->
  Product_init ste ms o =
  let st := fold_left absorb (flatten ms)
              (MkBuild (NpScalar Dtype.int8 Num.one) Dtype.int8 []) in
  let dt := expanded_dtype ste o (b_datatype st) in
  match matrices_of (flatten ms) with
  | [] => Raise ValueError_NoTerms
  | A :: rest =>
      let! numM' := dims_from 1 (numN A) (numM A) rest in
      Ok (MkProduct (sc_astype (b_scalar st) dt) (A :: rest) (numN A) numM' dt None)
  end.
Proof.
  intros Hother. unfold Product_init. rewrite addFactors_spec, Hother.
  cbn [rbind]. rewrite absorb_factors. cbn [b_factors app].
  destruct (matrices_of (flatten ms)) as [|A rest]; [reflexivity|].
  rewrite check_dims_cons. unfold expanded_dtype.
  destruct (typeExpansion o) as [[t|]|]; reflexivity.
Qed.

Lemma Product_init_other ste (ms : list factor) (o : options) :
  existsb is_other ms = true ->
  Product_init ste ms o = Raise TypeError_NonMatrixTerm.
Proof.
  intros H. unfold Product_init. rewrite addFactors_spec, H. reflexivity.
Qed.

(** X1: for terms that are numbers of the eight element types, matrices,
    Products, or objects that are neither scalars nor matrices, the
    construction raises the type error exactly when one of the terms
    handed to it is neither a scalar nor a matrix, whatever the other
    terms and their shapes are. *)
Theorem Product_init_type_error ste (ms : list factor) (o : options) :
  Product_init ste ms o = Raise TypeError_NonMatrixTerm <->
  existsb is_other ms = true.
Proof.
  split; [|apply Product_init_other].
  destruct (existsb is_other ms) eqn:E; [reflexivity|].
  rewrite (Product_init_unfold ste ms o E). cbv zeta.
  destruct (matrices_of (flatten ms)) as [|A rest]; [discriminate|].
  destruct (dims_from_cases rest 1 (numN A) (numM A)) as [[m' ->]|(j & a & ->)];
    discriminate.
Qed.

(** X2: for terms that are numbers of the eight element types, matrices,
    Products, or objects that are neither scalars nor matrices, the
    construction raises "Product has no terms" exactly when every term is
    a number or a matrix and the flattened terms hold no matrix:
    [Product()] and [Product(5)] are refused. *)
Theorem Product_init_no_terms ste (ms : list factor) (o : options) :
  Product_init ste ms o = Raise ValueError_NoTerms <->
  existsb is_other ms = false /\ matrices_of (flatten ms) = [].
Proof.
  split.
  - destruct (existsb is_other ms) eqn:E.
    + rewrite (Product_init_other ste ms o E). discriminate.
    + rewrite (Product_init_unfold ste ms o E). cbv zeta.
      destruct (matrices_of (flatten ms)) as [|A rest]; [auto|].
      destruct (dims_from_cases rest 1 (numN A) (numM A)) as [[m' ->]|(j & a & ->)];
        discriminate.
  - intros [E Hm]. rewrite (Product_init_unfold ste ms o E). cbv zeta.
    rewrite Hm. reflexivity.
Qed.

(** X3: for terms that are numbers of the eight element types, matrices,
    Products, or objects that are neither scalars nor matrices, the
    construction returns a Product exactly when every term is a number or
    a matrix, the flattened terms hold at least one matrix, and each
    matrix's [numM] is the [numN] of the next. *)
Theorem Product_init_succeeds ste (ms : list factor) (o : options) :
  (exists P, Product_init ste ms o = Ok P) <->
  existsb is_other ms = false /\
  matrices_of (flatten ms) <> [] /\
  fits (matrices_of (flatten ms)).
Proof.
  split.
  - intros [P H]. apply Product_init_constructed in H.
    destruct H as [Hother Hc Hne Hcomp _ _ _ _ _]. rewrite <- Hc.
    split; [exact Hother|]. split; [exact Hne|].
    apply compatible_fits. exact Hcomp.
  - intros (E & Hne & Hfits). rewrite (Product_init_unfold ste ms o E). cbv zeta.
    destruct (matrices_of (flatten ms)) as [|A rest]; [contradiction|].
    apply compatible_fits in Hfits.
    rewrite (dims_from_compatible A rest 1 (numN A) Hfits). cbn [rbind].
    eexists. reflexivity.
Qed.

Lemma last_map_numM (l : list Matrix) (A : Matrix) :
  l <> [] -> last_numM l 0 = numM (List.last l A).
Proof.
  unfold last_numM. induction l as [|B l IH]; [congruence|]. intros _.
  destruct l as [|C l]; [reflexivity|].
  change (List.last (map numM (B :: C :: l)) 0) with (List.last (map numM (C :: l)) 0).
  change (List.last (B :: C :: l) A) with (List.last (C :: l) A).
  apply IH. discriminate.
Qed.

(** X4: a constructed Product holds at least one factor, consecutive
    factors fit ([numM] of one is [numN] of the next), its [numN] is that
    of the first factor and its [numM] that of the last, its scalar has
    been cast to its element type, and no references are cached yet. *)
Theorem Product_init_invariants ste (ms : list factor) (o : options) (P : Product) :
  Product_init ste ms o = Ok P ->
  exists A0 rest,
    _content P = A0 :: rest /\
    fits (_content P) /\
    prod_numN P = numN A0 /\
    prod_numM P = numM (List.last (_content P) A0) /\
    sc_dtype (_scalar P) = prod_dtype P /\
    _forwardReferenceMatrix P = None.
Proof.
  intros H. apply Product_init_constructed in H.
  destruct H as [_ _ Hne Hcomp HN HM Hd _ Hcache].
  destruct (_content P) as [|A0 rest] eqn:E; [congruence|].
  exists A0, rest. split; [reflexivity|].
  split; [apply compatible_fits; exact Hcomp|].
  split; [exact HN|]. split; [|split; assumption].
  rewrite HM. apply last_map_numM. discriminate.
Qed.

Lemma Product_init_invariants_witness :
  exists A0 rest,
    _content ex_P = A0 :: rest /\
    fits (_content ex_P) /\
    prod_numN ex_P = numN A0 /\
    prod_numM ex_P = numM (List.last (_content ex_P) A0) /\
    sc_dtype (_scalar ex_P) = prod_dtype ex_P /\
    _forwardReferenceMatrix ex_P = None.
Proof.
  apply (Product_init_invariants ex_expansion
           [FScalar ex_two; FMatrix ex_A; FScalar ex_three; FMatrix ex_B]
           no_options ex_P).
  reflexivity.
Defined.

Lemma Product_init_dtype ste (ms : list factor) (o : options) (P : Product) :
  Product_init ste ms o = Ok P ->
  prod_dtype P =
  expanded_dtype ste o
    (fold_left Dtype.promote_types (dtypes_of (flatten ms)) Dtype.int8).
Proof.
  intros H. pose proof (Product_init_constructed _ _ _ _ H) as [E _ _ _ _ _ _ _ _].
  rewrite (Product_init_unfold ste ms o E) in H. cbv zeta in H.
  destruct (matrices_of (flatten ms)) as [|A rest]; [discriminate|].
  destruct (dims_from 1 (numN A) (numM A) rest); [|discriminate].
  cbn [rbind] in H. injection H as <-. cbn [prod_dtype].
  rewrite absorb_datatype. reflexivity.
Qed.

Lemma le_expanded_dtype ste (o : options) (dt : dtype) :
  Dtype.le dt (expanded_dtype ste o dt).
Proof.
  unfold expanded_dtype. destruct (typeExpansion o) as [[t|]|];
    try apply DtypeFacts.le_promote_l. apply DtypeFacts.le_refl.
Qed.

(** X5: the element type of a constructed Product is at least as wide as
    the element type of every factor, of every scalar met while
    flattening, and of a [typeExpansion] given explicitly. *)
Theorem Product_init_dtype_bounds ste (ms : list factor) (o : options) (P : Product) :
  Product_init ste ms o = Ok P ->
  (forall A, In A (_content P) -> Dtype.le (mat_dtype A) (prod_dtype P)) /\
  (forall s, In s (scalars_of (flatten ms)) -> Dtype.le (sc_dtype s) (prod_dtype P)) /\
  (forall t, typeExpansion o = Some (Some t) -> Dtype.le t (prod_dtype P)).
Proof.
  intros H. rewrite (Product_init_dtype _ _ _ _ H).
  apply Product_init_constructed in H. destruct H as [_ Hc _ _ _ _ _ _ _].
  repeat split.
  - intros A HA. rewrite Hc in HA.
    eapply DtypeFacts.le_trans; [|apply le_expanded_dtype].
    apply le_fold_promote_in, in_dtypes_of_matrix. exact HA.
  - intros s Hs.
    eapply DtypeFacts.le_trans; [|apply le_expanded_dtype].
    apply le_fold_promote_in, in_dtypes_of_scalar. exact Hs.
  - intros t Ht. unfold expanded_dtype. rewrite Ht.
    apply DtypeFacts.le_promote_r.
Qed.

Lemma Product_init_dtype_bounds_witness :
  (forall A, In A (_content ex_P) -> Dtype.le (mat_dtype A) (prod_dtype ex_P)) /\
  (forall s, In s (scalars_of (flatten [FScalar ex_two; FMatrix ex_A;
                                        FScalar ex_three; FMatrix ex_B])) ->
             Dtype.le (sc_dtype s) (prod_dtype ex_P)) /\
  (forall t, typeExpansion no_options = Some (Some t) ->
             Dtype.le t (prod_dtype ex_P)).
Proof.
  apply (Product_init_dtype_bounds ex_expansion
           [FScalar ex_two; FMatrix ex_A; FScalar ex_three; FMatrix ex_B]
           no_options ex_P).
  reflexivity.
Defined.

(** X6: with [typeExpansion=None] the element type of a constructed
    Product is the least type that every factor's and every scalar's
    element type casts to: it is no wider than any type that bounds them
    all. *)
Theorem Product_init_dtype_least ste (ms : list factor) (o : options) (P : Product)
        (t : dtype) :
  Product_init ste ms o = Ok P ->
  typeExpansion o = Some None ->
  (forall A, In A (_content P) -> Dtype.le (mat_dtype A) t) ->
  (forall s, In s (scalars_of (flatten ms)) -> Dtype.le (sc_dtype s) t) ->
  Dtype.le (prod_dtype P) t.
Proof.
  intros H Ho HA Hs. rewrite (Product_init_dtype _ _ _ _ H).
  apply Product_init_constructed in H. destruct H as [_ Hc _ _ _ _ _ _ _].
  unfold expanded_dtype. rewrite Ho. apply fold_promote_lub.
  - apply DtypeFacts.promote_int8_l.
  - intros x Hx. apply in_dtypes_of_inv in Hx.
    destruct Hx as [(A & HinA & <-)|(s & Hins & <-)].
    + apply HA. rewrite Hc. exact HinA.
    + apply Hs. exact Hins.
Qed.

Lemma Product_init_dtype_least_witness :
  Dtype.le (prod_dtype ex_P_plain) Dtype.int64.
Proof.
  apply (Product_init_dtype_least ex_expansion
           [FScalar ex_two; FMatrix ex_A; FScalar ex_three; FMatrix ex_B]
           no_expansion ex_P_plain Dtype.int64).
  - reflexivity.
  - reflexivity.
  - intros A HA. simpl in HA. destruct HA as [<-|[<-|[]]]; reflexivity.
  - intros s Hs. simpl in Hs. destruct Hs as [<-|[<-|[]]]; reflexivity.
Defined.

Lemma matrices_of_app (l1 l2 : list factor) :
  matrices_of (l1 ++ l2) = matrices_of l1 ++ matrices_of l2.
Proof. unfold matrices_of. apply flat_map_app. Qed.

Lemma scalars_of_app (l1 l2 : list factor) :
  scalars_of (l1 ++ l2) = scalars_of l1 ++ scalars_of l2.
Proof. unfold scalars_of. apply flat_map_app. Qed.

Lemma matrices_of_matrices (l : list Matrix) : matrices_of (map FMatrix l) = l.
Proof. induction l as [|A l IH]; simpl; congruence. Qed.

Lemma scalars_of_matrices (l : list Matrix) : scalars_of (map FMatrix l) = [].
Proof. induction l as [|A l IH]; simpl; congruence. Qed.

(** X7: a Product given as a term is spliced in: the factors of the new
    Product are the factors of the nested one followed by the matrices of
    the remaining terms; its scalar starts as [np.int8(1)], takes the
    scalar of the nested Product by [np.inner] when that scalar is not 1
    (only then is it part of [content]), then the remaining scalars in
    their order, and is cast to the element type of the new Product. *)
Theorem Product_init_splice ste (P1 : Product) (rest : list factor) (o : options)
        (P : Product) :
  Product_init ste (FProduct P1 :: rest) o = Ok P ->
  _content P = _content P1 ++ matrices_of (flatten rest) /\
  _scalar P =
  sc_astype
    (fold_left sc_inner (scalars_of (flatten rest))
       (if sc_ne_1 (_scalar P1)
        then sc_inner (NpScalar Dtype.int8 Num.one) (_scalar P1)
        else NpScalar Dtype.int8 Num.one))
    (prod_dtype P).
Proof.
  intros H. apply Product_init_constructed in H.
  destruct H as [_ Hc _ _ _ _ _ Hval _].
  unfold running_scalar in Hval.
  change (flatten (FProduct P1 :: rest)) with (content P1 ++ flatten rest) in *.
  rewrite matrices_of_app in Hc. rewrite scalars_of_app, fold_left_app in Hval.
  rewrite Hc, Hval. unfold content.
  rewrite matrices_of_app, scalars_of_app, matrices_of_matrices, scalars_of_matrices.
  destruct (sc_ne_1 (_scalar P1)); simpl; split; reflexivity.
Qed.

Lemma Product_init_splice_witness :
  _content ex_PC = _content ex_P ++ matrices_of (flatten [FMatrix ex_C]) /\
  _scalar ex_PC =
  sc_astype
    (fold_left sc_inner (scalars_of (flatten [FMatrix ex_C]))
       (if sc_ne_1 (_scalar ex_P)
        then sc_inner (NpScalar Dtype.int8 Num.one) (_scalar ex_P)
        else NpScalar Dtype.int8 Num.one))
    (prod_dtype ex_PC).
Proof.
  apply (Product_init_splice ex_expansion ex_P [FMatrix ex_C] no_options ex_PC).
  reflexivity.
Defined.

(** ** The matrix product *)


Lemma dot_shape (A B C : ndarray) :
  dot A B = Ok C ->
  arr_cols A = arr_rows B /\ arr_rows C = arr_rows A /\ arr_cols C = arr_cols B.
Proof.
  unfold dot. destruct (Nat.eqb_spec (arr_cols A) (arr_rows B)); [|discriminate].
  intros H. injection H as <-. auto.
Qed.

Lemma dot_ok (A B : ndarray) :
  arr_cols A = arr_rows B -> exists C, dot A B = Ok C.
Proof.
  intros H. unfold dot. rewrite H, Nat.eqb_refl. eexists. reflexivity.
Qed.

(** ** Products of references *)

Lemma apply_references_cons (r : ndarray) (rs : list ndarray) (X : ndarray) :
  apply_references (r :: rs) X = let! Y := apply_references rs X in dot r Y.
Proof.
  unfold apply_references. simpl rev. rewrite for_each_app.
  destruct (for_each _ (rev rs) X) as [Y|e]; simpl; [|reflexivity].
  destruct (dot r Y); reflexivity.
Qed.

Lemma reference_loop (l : list Matrix) (Al : Matrix) (P : Product) (M0 : ndarray) :
  _content P = l ++ [Al] ->
  for_each
    (fun arrRes ii =>
       let! term := content_at P (length (_content P) - ii - 1) in
       dot (reference term) arrRes)
    (seq 1 (length (_content P) - 1)) M0
  = apply_references (map reference l) M0.
Proof.
  intros E. rewrite E, length_app. simpl length.
  replace (length l + 1 - 1) with (length l) by lia.
  unfold apply_references. rewrite <- map_rev.
  rewrite <- (for_each_map (fun arrRes R => dot R arrRes) reference).
  rewrite <- (index_loop_down (fun A arrRes => dot (reference A) arrRes)).
  rewrite <- seq_shift, <- for_each_map.
  apply for_each_ext. intros s i Hi. apply in_seq in Hi.
  unfold content_at, at_index. rewrite E.
  replace (length l + 1 - S i - 1) with (length l - 1 - i) by lia.
  rewrite lookup_app_l by lia.
  destruct (l !! (length l - 1 - i)); reflexivity.
Qed.

Lemma Product_reference_chain (l : list Matrix) (Al : Matrix) (P : Product) :
  _content P = l ++ [Al] ->
  Product_reference P =
  apply_references (map reference l)
    (np_inner (reference Al)
              (sc_astype (_scalar P) (promote_types Dtype.float64 (prod_dtype P)))).
Proof.
  intros E. unfold Product_reference.
  assert (Hlast : content_at P (length (_content P) - 1) = Ok Al).
  { unfold content_at. rewrite E, length_app. simpl length.
    replace (length l + 1 - 1) with (length l) by lia.
    rewrite lookup_app_r by lia. rewrite Nat.sub_diag. reflexivity. }
  rewrite Hlast. cbn [rbind]. apply (reference_loop l Al P _ E).
Qed.

Lemma nonempty_snoc {A : Type} (l : list A) :
  l <> [] -> exists l' x, l = l' ++ [x].
Proof.
  intros H. destruct (exists_last H) as (l' & x & E). exists l', x. exact E.
Qed.

Lemma apply_references_shape (l : list Matrix) (M0 : ndarray) (A0 : Matrix) :
  Forall reference_shape l ->
  compatible (l ++ [A0]) ->
  arr_rows M0 = numN A0 ->
  exists R,
    apply_references (map reference l) M0 = Ok R /\
    arr_rows R = hd 0 (map numN (l ++ [A0])) /\
    arr_cols R = arr_cols M0 /\
    Dtype.le (arr_dtype M0) (arr_dtype R).
Proof.
  intros Hl. induction l as [|A l IH]; intros Hc Hr.
  - exists M0. repeat split; [exact Hr | apply DtypeFacts.le_refl].
  - inversion Hl as [|? ? [HAr HAc] Hrest]; subst.
    assert (Hc' : compatible (l ++ [A0]) /\
                  numM A = hd 0 (map numN (l ++ [A0]))).
    { simpl in Hc. destruct (l ++ [A0]) as [|B t] eqn:E.
      - destruct l; discriminate.
      - destruct Hc as [Hab Hc]. split; [exact Hc | exact Hab]. }
    destruct Hc' as [Hc' Hm].
    destruct (IH Hrest Hc' Hr) as (R & ER & HrR & HcR & HdR).
    simpl map. rewrite apply_references_cons, ER. cbn [rbind].
    destruct (dot_ok (reference A) R ltac:(congruence)) as [R' ER'].
    exists R'. split; [exact ER'|].
    destruct (dot_shape _ _ _ ER') as (_ & Hr' & Hc2).
    split; [simpl; congruence|]. split; [congruence|].
    apply (DtypeFacts.le_trans _ (arr_dtype R)); [exact HdR|].
    unfold dot in ER'. destruct (_ =? _); [|discriminate].
    injection ER' as <-. apply DtypeFacts.le_promote_r.
Qed.

(** X10: for a constructed Product whose factors' references have the
    shapes of the factors, [_reference()] returns an array of [numN] rows
    and [numM] columns, in an element type at least as wide as [float64]
    and as the element type of the Product. *)
Theorem Product_reference_shape ste (ms : list factor) (o : options) (P : Product) :
  Product_init ste ms o = Ok P ->
  Forall reference_shape (_content P) ->
  exists R,
    Product_reference P = Ok R /\
    arr_rows R = prod_numN P /\ arr_cols R = prod_numM P /\
    Dtype.le Dtype.float64 (arr_dtype R) /\
    Dtype.le (prod_dtype P) (arr_dtype R).
Proof.
  intros H Hs. apply Product_init_constructed in H.
  destruct H as [_ _ Hne Hcomp HN HM _ _ _].
  destruct (nonempty_snoc _ Hne) as (l & Al & E).
  rewrite (Product_reference_chain l Al P E).
  rewrite E in Hs, Hcomp, HN, HM.
  apply Forall_app in Hs. destruct Hs as [Hl HAl].
  inversion HAl as [|? ? [HrAl HcAl] _]; subst.
  set (M0 := np_inner _ _).
  destruct (apply_references_shape l M0 Al Hl Hcomp HrAl) as (R & ER & HrR & HcR & HdR).
  exists R. split; [exact ER|]. split; [congruence|]. split.
  - rewrite HcR, HM. unfold M0, last_numM. simpl arr_cols.
    rewrite map_app. simpl map. rewrite last_last. exact HcAl.
  - assert (Hd : Dtype.le (promote_types Dtype.float64 (prod_dtype P)) (arr_dtype R)).
    { apply (DtypeFacts.le_trans _ (arr_dtype M0)); [|exact HdR].
      unfold M0. simpl. apply DtypeFacts.le_promote_r. }
    split; (eapply DtypeFacts.le_trans; [|exact Hd]);
      [apply DtypeFacts.le_promote_l | apply DtypeFacts.le_promote_r].
Qed.

Lemma Dense_reference_shape (A : ndarray) : reference_shape (Dense A).
Proof. split; reflexivity. Qed.

Lemma Product_reference_shape_witness :
  exists R,
    Product_reference ex_P = Ok R /\
    arr_rows R = prod_numN ex_P /\ arr_cols R = prod_numM ex_P /\
    Dtype.le Dtype.float64 (arr_dtype R) /\
    Dtype.le (prod_dtype ex_P) (arr_dtype R).
Proof.
  apply (Product_reference_shape ex_expansion
           [FScalar ex_two; FMatrix ex_A; FScalar ex_three; FMatrix ex_B]
           no_options ex_P).
  - reflexivity.
  - repeat constructor; apply Dense_reference_shape.
Defined.

(** ** The conjugate transpose *)


(** ** DiagBlocks against its reference *)







(** X16: on a grid with different numbers of block rows and block columns,
    neither of them 1, [backward] raises a shape error on every input. *)
Theorem DiagBlocks_backward_rectangular (T : tensor3) (arrX : ndarray) :
  ten_d0 T <> ten_d1 T -> ten_d0 T <> 1 -> ten_d1 T <> 1 ->
  DiagBlocks_backward (DiagBlocks_init T) arrX = Raise ValueError_Shape.
Proof. apply DiagBlocks_backward_nonsquare. Qed.

Lemma DiagBlocks_backward_rectangular_witness :
  DiagBlocks_backward (DiagBlocks_init ex_T322)
                      (arr_of Dtype.int8 [[1]; [0]; [0]; [1]; [0]; [0]]%Z)
  = Raise ValueError_Shape.
Proof.
  apply (DiagBlocks_backward_rectangular ex_T322); simpl; lia.
Defined.

(** ** Columns and rows of a Product *)

Lemma getCol_loop (l : list Matrix) (Al : Matrix) (P : Product) (X0 : ndarray) :
  _content P = l ++ [Al] ->
  for_each
    (fun arrRes ii =>
       let! A := content_at P (length (_content P) - 1 - ii) in forward A arrRes)
    (seq 1 (length (_content P) - 1)) X0
  = apply_forward l X0.
Proof.
  intros E. rewrite E, length_app. simpl length.
  replace (length l + 1 - 1) with (length l) by lia.
  rewrite <- for_each_rev_forward.
  rewrite <- (index_loop_down (fun A s => forward A s)).
  rewrite <- seq_shift, <- for_each_map.
  apply for_each_ext. intros s i Hi. apply in_seq in Hi.
  unfold content_at, at_index. rewrite E.
  replace (length l - S i) with (length l - 1 - i) by lia.
  rewrite lookup_app_l by lia.
  destruct (l !! (length l - 1 - i)); reflexivity.
Qed.

(** X17: [_getCol(idx)] of a Product takes the column [idx] of the last
    factor, applies the scalar step of [_forward] to it ([np.inner] with
    the scalar when it is not 1, a cast to the promoted type otherwise) and
    hands it to [forward] of the other factors, last first; what the last
    factor's [getCol] or a factor's [forward] raises is raised. *)
Theorem Product_getCol_chain getCol (l : list Matrix) (Al : Matrix) (P : Product)
      (idx : nat) :
  _content P = l ++ [Al] ->
  Product_getCol getCol P idx =
  let! c := getCol Al idx in apply_forward l (forward_scale P c).
Proof.
  intros E. unfold Product_getCol.
  assert (Hlast : content_at P (length (_content P) - 1) = Ok Al).
  { unfold content_at. rewrite E, length_app. simpl length.
    replace (length l + 1 - 1) with (length l) by lia.
    rewrite lookup_app_r by lia. rewrite Nat.sub_diag. reflexivity. }
  rewrite Hlast. cbn [rbind]. destruct (getCol Al idx) as [c|e]; cbn [rbind];
    [|reflexivity].
  apply (getCol_loop l Al P _ E).
Qed.

Lemma Product_getCol_chain_witness :
  Product_getCol ex_getCol ex_P 0 =
  let! c := ex_getCol ex_B 0 in apply_forward [ex_A] (forward_scale ex_P c).
Proof.
  apply (Product_getCol_chain ex_getCol [ex_A] ex_B ex_P 0).
  reflexivity.
Defined.

Lemma getRow_loop (A1 : Matrix) (l : list Matrix) (P : Product) (X0 : ndarray) :
  _content P = A1 :: l ->
  for_each
    (fun arrRes ii => let! A := content_at P ii in backward A arrRes)
    (seq 1 (length (_content P) - 1)) X0
  = apply_backward l X0.
Proof.
  intros E. rewrite E.
  replace (length (A1 :: l) - 1) with (length l) by (simpl; lia).
  rewrite <- for_each_backward.
  rewrite <- (index_loop_up (fun A s => backward A s) [A1] l).
  apply for_each_ext. intros s i _. unfold content_at, at_index. rewrite E.
  simpl app. destruct ((A1 :: l) !! i); reflexivity.
Qed.

(** X18: [_getRow(idx)] of a Product takes the conjugate of the row [idx]
    of the first factor, applies the scalar step of [_backward] to it
    ([np.inner] with the scalar, conjugated when it is complex, when the
    scalar is not 1, a cast to the promoted type otherwise), hands it to
    [backward] of the other factors in their order and conjugates the
    result; what the first factor's [getRow] or a factor's [backward]
    raises is raised. *)
Theorem Product_getRow_chain getRow (A1 : Matrix) (l : list Matrix) (P : Product)
      (idx : nat) :
  _content P = A1 :: l ->
  Product_getRow getRow P idx =
  let! row := getRow A1 idx in
  let! Y := apply_backward l (backward_scale P (arr_conjugate row)) in
  Ok (arr_conjugate Y).
Proof.
  intros E. unfold Product_getRow.
  assert (Hfirst : content_at P 0 = Ok A1).
  { unfold content_at. rewrite E. reflexivity. }
  rewrite Hfirst. cbn [rbind]. destruct (getRow A1 idx) as [row|e]; cbn [rbind];
    [|reflexivity].
  rewrite (getRow_loop A1 l P _ E). reflexivity.
Qed.

Lemma Product_getRow_chain_witness :
  Product_getRow ex_getRow ex_P 0 =
  let! row := ex_getRow ex_A 0 in
  let! Y := apply_backward [ex_B] (backward_scale ex_P (arr_conjugate row)) in
  Ok (arr_conjugate Y).
Proof.
  apply (Product_getRow_chain ex_getRow ex_A [ex_B] ex_P 0).
  reflexivity.
Defined.

Lemma apply_forward_app (l1 l2 : list Matrix) (X : ndarray) :
  apply_forward (l1 ++ l2) X = let! Y := apply_forward l2 X in apply_forward l1 Y.
Proof.
  induction l1 as [|A l1 IH]; simpl.
  - destruct (apply_forward l2 X); reflexivity.
  - rewrite IH. destruct (apply_forward l2 X); reflexivity.
Qed.

(** ** Exceptions and the cache *)

Lemma apply_backward_app (l1 l2 : list Matrix) (X : ndarray) :
  apply_backward (l1 ++ l2) X = let! Y := apply_backward l1 X in apply_backward l2 Y.
Proof.
  revert X. induction l1 as [|A l1 IH]; intros X; simpl; [reflexivity|].
  destruct (backward A X); simpl; [apply IH | reflexivity].
Qed.

(** X19: an exception of a factor ends [forward]: when the factors after
    [A], which are applied before it, succeed and [A] raises on their
    result, [forward] raises that exception and applies no further
    factor. *)
Theorem Product_forward_raises (P : Product) (l1 l2 : list Matrix) (A : Matrix)
        (X Y : ndarray) (e : error) :
  _content P = l1 ++ A :: l2 ->
  apply_forward l2 (forward_scale P X) = Ok Y ->
  forward A Y = Raise e ->
  Product_forward P X = Raise e.
Proof.
  intros E H1 H2.
  rewrite Product_forward_chain, E, apply_forward_app. simpl apply_forward.
  rewrite H1. cbn [rbind]. rewrite H2. reflexivity.
Qed.

Lemma Product_forward_raises_witness :
  Product_forward ex_P ex_X3 = Raise ValueError_Shape.
Proof.
  apply (Product_forward_raises ex_P [ex_A] [] ex_B ex_X3
           (forward_scale ex_P ex_X3) ValueError_Shape).
  - reflexivity.
  - reflexivity.
  - reflexivity.
Defined.

(** X20: an exception of a factor ends [backward]: when the factors before
    [A] succeed and [A] raises on their result, [backward] raises that
    exception and applies no further factor. *)
Theorem Product_backward_raises (P : Product) (l1 l2 : list Matrix) (A : Matrix)
        (X Y : ndarray) (e : error) :
  _content P = l1 ++ A :: l2 ->
  apply_backward l1 (backward_scale P X) = Ok Y ->
  backward A Y = Raise e ->
  Product_backward P X = Raise e.
Proof.
  intros E H1 H2.
  rewrite Product_backward_chain, E, apply_backward_app, H1. cbn [rbind].
  simpl apply_backward. rewrite H2. reflexivity.
Qed.

Lemma Product_backward_raises_witness :
  Product_backward ex_P ex_X3 = Raise ValueError_Shape.
Proof.
  apply (Product_backward_raises ex_P [] [ex_B] ex_A ex_X3
           (backward_scale ex_P ex_X3) ValueError_Shape).
  - reflexivity.
  - reflexivity.
  - reflexivity.
Defined.

(** X21: the first call of [_forwardReference] on a constructed Product
    stores the references of the factors, in their order, and changes
    nothing else of the object; every later call finds the list, leaves
    the object as it is and returns what a first call returns. *)
Theorem Product_forwardReference_cache ste (ms : list factor) (o : options)
        (P : Product) (X X' : ndarray) :
  Product_init ste ms o = Ok P ->
  snd (Product_forwardReference P X)
  = MkProduct (_scalar P) (_content P) (prod_numN P) (prod_numM P) (prod_dtype P)
              (Some (map reference (_content P))) /\
  Product_forwardReference (snd (Product_forwardReference P X)) X'
  = (fst (Product_forwardReference P X'), snd (Product_forwardReference P X)).
Proof.
  intros H. apply Product_init_constructed in H.
  destruct H as [_ _ _ _ _ _ _ _ Hcache]. split.
  - rewrite (Product_forwardReference_first P X Hcache). reflexivity.
  - apply Product_forwardReference_again. exact Hcache.
Qed.

Lemma Product_forwardReference_cache_witness :
  snd (Product_forwardReference ex_P ex_X)
  = MkProduct (_scalar ex_P) (_content ex_P) (prod_numN ex_P) (prod_numM ex_P)
              (prod_dtype ex_P) (Some (map reference (_content ex_P))) /\
  Product_forwardReference (snd (Product_forwardReference ex_P ex_X)) ex_X
  = (fst (Product_forwardReference ex_P ex_X),
     snd (Product_forwardReference ex_P ex_X)).
Proof.
  apply (Product_forwardReference_cache ex_expansion
           [FScalar ex_two; FMatrix ex_A; FScalar ex_three; FMatrix ex_B]
           no_options ex_P ex_X ex_X).
  reflexivity.
Defined.
